(** * Mars terraforming game: the session state, its callbacks and the agent's
      action parser, embedded from [App.tsx] and [agent.ts].

    Conventions of the embedding.

    - A JavaScript [number] that holds a fraction (a resource level, an
      upgrade multiplier, a value of [Math.random()]) is an exact rational
      of [Q]; equality of such values is [==].  Integer-valued numbers
      (credits, costs, the countdown, the 0/1 critical flag, the
      millisecond clock) are in [Z].  Rounding and [NaN] are not
      represented.
    - The component's [useState] cells form the record [State].  A callback
      is a function [render -> ... -> st -> st']: [render] is the render
      whose values the callback closed over (whatever the source reads
      directly: [resources.energy], [credits], [gameWon], ...), and [st] is
      the state the queued updates act on (whatever the source reads
      through an updater argument [prev]).
    - The effects of a render ([useEffect]) read that render and queue
      their updates onto it; [commit] applies them, before any other
      callback runs.  Timers are callbacks that can run while the guard of
      the effect that owns them holds; how much wall-clock time passes
      between two callbacks is not represented in a [Session], and is added
      by [Clock] for the drain and the countdown intervals.
    - [Record<string, number>] is a [gmap string Z]. *)

From Stdlib Require Import QArith Qminmax Qround ZArith Lia Lqa List Bool.
From Stdlib Require Import Ascii String.
From stdpp Require Import gmap strings list.

#[local] Set Warnings "-register-all".
#[local] Open Scope Q_scope.

(** ** Numbers *)

Definition Qleb (x y : Q) : bool := Qle_bool x y.
Definition Qltb (x y : Q) : bool := negb (Qle_bool y x).

(** ** Data model (the interfaces of [App.tsx]) *)

Record Resource := mkResource {
  oxygen : Q;
  water : Q;
  temperature : Q;
  energy : Q
}.

(** [keyof Resource] *)
Inductive ResourceKey := Oxygen | Water | Temperature | Energy.

#[global] Instance ResourceKey_eq_dec : EqDecision ResourceKey.
Proof. solve_decision. Defined.

(** [prev[type]] *)
Definition getField (type : ResourceKey) (r : Resource) : Q :=
  match type with
  | Oxygen => oxygen r
  | Water => water r
  | Temperature => temperature r
  | Energy => energy r
  end.

(** [{ ...prev, [type]: v }] *)
Definition setField (type : ResourceKey) (v : Q) (r : Resource) : Resource :=
  match type with
  | Oxygen => mkResource v (water r) (temperature r) (energy r)
  | Water => mkResource (oxygen r) v (temperature r) (energy r)
  | Temperature => mkResource (oxygen r) (water r) v (energy r)
  | Energy => mkResource (oxygen r) (water r) (temperature r) v
  end.

Record Upgrade := mkUpgrade {
  id : string;
  name : string;
  cost : Z;
  resourceType : ResourceKey;
  multiplier : Q;
  purchased : bool
}.

Inductive Severity := positive_ | negative_.

(** The event's [id] field is [eid] here, [id] being the upgrade's. *)
Record Event := mkEvent {
  eid : string;
  title : string;
  description : string;
  effect : Resource -> Resource;
  severity : Severity
}.

(** The [useState] cells of [App]. *)
Record State := mkState {
  resources : Resource;
  credits : Z;
  currentEvent : option Event;
  gameWon : bool;
  gameLost : bool;
  criticalTimer : Z;
  countdownSeconds : Z;
  upgrades : list Upgrade;
  gameStarted : bool;
  eventsEnabled : bool;
  eventCooldowns : gmap string Z
}.

(** The state setters; those the source calls with an updater take one. *)
Definition setResources (f : Resource -> Resource) (s : State) : State :=
  mkState (f (resources s)) (credits s) (currentEvent s) (gameWon s)
    (gameLost s) (criticalTimer s) (countdownSeconds s) (upgrades s)
    (gameStarted s) (eventsEnabled s) (eventCooldowns s).

Definition setCredits (f : Z -> Z) (s : State) : State :=
  mkState (resources s) (f (credits s)) (currentEvent s) (gameWon s)
    (gameLost s) (criticalTimer s) (countdownSeconds s) (upgrades s)
    (gameStarted s) (eventsEnabled s) (eventCooldowns s).

Definition setCurrentEvent (e : option Event) (s : State) : State :=
  mkState (resources s) (credits s) e (gameWon s)
    (gameLost s) (criticalTimer s) (countdownSeconds s) (upgrades s)
    (gameStarted s) (eventsEnabled s) (eventCooldowns s).

Definition setGameWon (b : bool) (s : State) : State :=
  mkState (resources s) (credits s) (currentEvent s) b
    (gameLost s) (criticalTimer s) (countdownSeconds s) (upgrades s)
    (gameStarted s) (eventsEnabled s) (eventCooldowns s).

Definition setGameLost (b : bool) (s : State) : State :=
  mkState (resources s) (credits s) (currentEvent s) (gameWon s)
    b (criticalTimer s) (countdownSeconds s) (upgrades s)
    (gameStarted s) (eventsEnabled s) (eventCooldowns s).

Definition setCriticalTimer (n : Z) (s : State) : State :=
  mkState (resources s) (credits s) (currentEvent s) (gameWon s)
    (gameLost s) n (countdownSeconds s) (upgrades s)
    (gameStarted s) (eventsEnabled s) (eventCooldowns s).

Definition setCountdownSeconds (f : Z -> Z) (s : State) : State :=
  mkState (resources s) (credits s) (currentEvent s) (gameWon s)
    (gameLost s) (criticalTimer s) (f (countdownSeconds s)) (upgrades s)
    (gameStarted s) (eventsEnabled s) (eventCooldowns s).

Definition setUpgrades (f : list Upgrade -> list Upgrade) (s : State) : State :=
  mkState (resources s) (credits s) (currentEvent s) (gameWon s)
    (gameLost s) (criticalTimer s) (countdownSeconds s) (f (upgrades s))
    (gameStarted s) (eventsEnabled s) (eventCooldowns s).

Definition setGameStarted (b : bool) (s : State) : State :=
  mkState (resources s) (credits s) (currentEvent s) (gameWon s)
    (gameLost s) (criticalTimer s) (countdownSeconds s) (upgrades s)
    b (eventsEnabled s) (eventCooldowns s).

Definition setEventsEnabled (b : bool) (s : State) : State :=
  mkState (resources s) (credits s) (currentEvent s) (gameWon s)
    (gameLost s) (criticalTimer s) (countdownSeconds s) (upgrades s)
    (gameStarted s) b (eventCooldowns s).

Definition setEventCooldowns (f : gmap string Z -> gmap string Z) (s : State)
  : State :=
  mkState (resources s) (credits s) (currentEvent s) (gameWon s)
    (gameLost s) (criticalTimer s) (countdownSeconds s) (upgrades s)
    (gameStarted s) (eventsEnabled s) (f (eventCooldowns s)).

(** ** Initial values *)

Definition initialResources : Resource := mkResource 0 0 (-60) 100.

Definition initialUpgrades : list Upgrade :=
  [ mkUpgrade "oxygen1" "Basic Oxygen Generator" 80 Oxygen 1.2 false;
    mkUpgrade "water1" "Water Extractor" 80 Water 1.2 false;
    mkUpgrade "temp1" "Thermal Generator" 80 Temperature 1.2 false;
    mkUpgrade "oxygen2" "Advanced Oxygen System" 200 Oxygen 1.5 false;
    mkUpgrade "water2" "Deep Core Extractor" 200 Water 1.5 false;
    mkUpgrade "temp2" "Fusion Array" 200 Temperature 1.5 false;
    mkUpgrade "energy1" "Solar Array" 150 Energy 1.3 false;
    mkUpgrade "energy2" "Nuclear Generator" 300 Energy 1.8 false ].

Definition initialState : State :=
  mkState initialResources 30 None false false 0 30 initialUpgrades
    false false ∅.

(** ** The event catalogue *)

Definition events : list Event :=
  [ mkEvent "dust_storm" "Dust Storm"
      "A massive dust storm hits your colony!"
      (fun res => mkResource (Qmax 0 (oxygen res - 12)) (water res)
                    (Qmax (-60) (temperature res - 5))
                    (Qmax 0 (energy res - 15)))
      negative_;
    mkEvent "ice_discovery" "Ice Discovery"
      "Your rovers discovered an underground ice deposit!"
      (fun res => mkResource (oxygen res) (Qmin 100 (water res + 12))
                    (temperature res) (energy res))
      positive_;
    mkEvent "solar_flare" "Solar Flare"
      "A solar flare increases atmospheric temperature!"
      (fun res => mkResource (oxygen res) (water res)
                    (Qmin 50 (temperature res + 4)) (energy res))
      positive_;
    mkEvent "meteor_impact" "Meteor Impact"
      "A meteor has struck nearby, releasing underground water!"
      (fun res => mkResource (oxygen res) (Qmin 100 (water res + 15))
                    (Qmin 50 (temperature res + 2)) (energy res))
      positive_;
    mkEvent "radiation_storm" "Radiation Storm"
      "A radiation storm is affecting your oxygen generators!"
      (fun res => mkResource (Qmax 0 (oxygen res - 12)) (water res)
                    (temperature res) (energy res))
      negative_;
    mkEvent "volcanic_activity" "Volcanic Activity"
      "Dormant volcanoes are showing activity!"
      (fun res => mkResource (oxygen res) (water res)
                    (Qmin 50 (temperature res + 6)) (energy res))
      positive_;
    mkEvent "equipment_failure" "Equipment Failure"
      "Critical systems are malfunctioning!"
      (fun res => mkResource (Qmax 0 (oxygen res - 10))
                    (Qmax 0 (water res - 8))
                    (temperature res) (energy res))
      negative_;
    mkEvent "atmospheric_leak" "Atmospheric Leak"
      "Oxygen is rapidly escaping through a breach!"
      (fun res => mkResource (Qmax 0 (oxygen res - 15)) (water res)
                    (temperature res) (energy res))
      negative_;
    mkEvent "freezing_wave" "Freezing Wave"
      "A severe cold front is approaching!"
      (fun res => mkResource (oxygen res) (Qmax 0 (water res - 5))
                    (Qmax (-60) (temperature res - 8)) (energy res))
      negative_;
    mkEvent "sandstorm" "Sandstorm"
      "A violent sandstorm is damaging equipment!"
      (fun res => mkResource (Qmax 0 (oxygen res - 7))
                    (Qmax 0 (water res - 4))
                    (temperature res) (energy res))
      negative_;
    mkEvent "system_failure" "Critical System Failure"
      "Multiple systems are failing simultaneously!"
      (fun res => mkResource (Qmax 0 (oxygen res - 20))
                    (Qmax 0 (water res - 15))
                    (temperature res)
                    (Qmax 0 (energy res - 25)))
      negative_;
    mkEvent "energy_surge" "Energy Grid Surge"
      "Power systems are overloading!"
      (fun res => mkResource (oxygen res) (water res) (temperature res)
                    (Qmax 0 (energy res - 30)))
      negative_ ].

(** ** [getMultiplier] *)

Definition getMultiplier (ups : list Upgrade) (type : ResourceKey) : Q :=
  fold_left (fun mult upgrade => mult * multiplier upgrade)
    (List.filter
       (fun u => bool_decide (resourceType u = type) && purchased u) ups)
    1.

(** ** [handleAction] *)

Definition baseGain (type : ResourceKey) : Q :=
  match type with
  | Temperature => 0.3
  | Oxygen => 3
  | Water => 3
  | Energy => 5
  end.

Definition handleAction (render : State) (type : ResourceKey) (st : State)
  : State :=
  let st := if negb (gameStarted render) then setGameStarted true st else st in
  if gameWon render || gameLost render then st
  else
    match type with
    | Energy =>
        let multiplier := getMultiplier (upgrades render) type in
        setCredits (fun prev => prev + 2)%Z
          (setResources
             (fun prev => setField Energy
                            (Qmin 100 (energy prev + 8 * multiplier)) prev)
             st)
    | _ =>
        if Qltb (energy (resources render)) 10 then st
        else
          let multiplier := getMultiplier (upgrades render) type in
          setCredits (fun prev => prev + 2)%Z
            (setResources
               (fun prev =>
                  let energyEfficiency := energy prev / 100 in
                  setField Energy (Qmax 0 (energy prev - 10))
                    (setField type
                       (match type with
                        | Temperature =>
                            Qmin 50 (getField type prev
                                     + baseGain Temperature * multiplier
                                       * energyEfficiency)
                        | _ =>
                            Qmin 100 (getField type prev
                                      + baseGain type * multiplier
                                        * energyEfficiency)
                        end) prev))
               st)
    end.

(** ** [purchaseUpgrade] *)

Definition markPurchased (upgrade : Upgrade) (u : Upgrade) : Upgrade :=
  if String.eqb (id u) (id upgrade)
  then mkUpgrade (id u) (name u) (cost u) (resourceType u) (multiplier u) true
  else u.

Definition purchaseUpgrade (render : State) (upgrade : Upgrade) (st : State)
  : State :=
  let st := if negb (gameStarted render) then setGameStarted true st else st in
  if gameWon render || gameLost render then st
  else if (cost upgrade <=? credits render)%Z && negb (purchased upgrade)
  then setUpgrades (map (markPurchased upgrade))
         (setCredits (fun prev => prev - cost upgrade)%Z st)
  else st.

(** ** The interval callbacks *)

(** Resource drain, every 3 s; reads the state through [prev] only. *)
Definition drain (prev : Resource) : Resource :=
  let energyEfficiency := energy prev / 100 in
  mkResource
    (Qmax 0 (oxygen prev - 1.2 * (2 - energyEfficiency)))
    (Qmax 0 (water prev - 0.8 * (2 - energyEfficiency)))
    (Qmax (-60) (temperature prev - 0.4 * (2 - energyEfficiency)))
    (Qmax 0 (energy prev - 0.6)).

Definition drainTick (st : State) : State := setResources drain st.

(** Countdown, every second while the critical effect keeps its interval. *)
Definition countdownTick (st : State) : State :=
  if (countdownSeconds st <=? 1)%Z
  then setGameLost true (setCountdownSeconds (fun _ => 0%Z) st)
  else setCountdownSeconds (fun prev => prev - 1)%Z st.

(** Event roll, every 6 s.  [now] is [Date.now()], [r1] and [r2] are the two
    values of [Math.random()].  The callback is created by an effect whose
    dependency list is [gameWon, gameLost, gameStarted, eventsEnabled]; the
    [eventCooldowns] it filters with is the one of [render], the render in
    which that effect last ran. *)
Definition cleanCooldowns (currentTime : Z) (prev : gmap string Z)
  : gmap string Z :=
  filter (fun kv => ¬ (15000 < currentTime - kv.2)%Z) prev.

Definition isAvailable (cooldowns : gmap string Z) (currentTime : Z)
  (event : Event) : bool :=
  match cooldowns !! eid event with
  | None => true
  | Some timestamp =>
      (timestamp =? 0)%Z || (15000 <? currentTime - timestamp)%Z
  end.

Definition availableEvents (cooldowns : gmap string Z) (currentTime : Z)
  : list Event :=
  List.filter (isAvailable cooldowns currentTime) events.

(** [availableEvents[Math.floor(Math.random() * availableEvents.length)]],
    guarded by [Math.random() < 0.5] and [availableEvents.length > 0]. *)
Definition selectEvent (cooldowns : gmap string Z) (currentTime : Z)
  (r1 r2 : Q) : option Event :=
  if Qltb r1 0.5 then
    let available := availableEvents cooldowns currentTime in
    if (0 <? length available)%nat
    then available
         !! Z.to_nat (Qfloor (r2 * inject_Z (Z.of_nat (length available))))
    else None
  else None.

Definition eventTick (render : State) (currentTime : Z) (r1 r2 : Q)
  (st : State) : State :=
  let st := setEventCooldowns (cleanCooldowns currentTime) st in
  match selectEvent (eventCooldowns render) currentTime r1 r2 with
  | Some randomEvent =>
      setEventCooldowns (insert (eid randomEvent) currentTime)
        (setResources (effect randomEvent)
           (setCurrentEvent (Some randomEvent) st))
  | None => st
  end.

(** ** The render effects *)

Definition isCritical (r : Resource) : bool :=
  Qleb (oxygen r) 5 || Qleb (water r) 5 || Qleb (energy r) 5.

(** Combined critical check; its interval is the one [countdownTick] runs on. *)
Definition criticalEffect (render st : State) : State :=
  if negb (gameStarted render) || gameWon render || gameLost render then st
  else if isCritical (resources render) then
    if (criticalTimer render =? 0)%Z
    then setCountdownSeconds (fun _ => 30%Z) (setCriticalTimer 1 st)
    else st
  else setCountdownSeconds (fun _ => 30%Z) (setCriticalTimer 0 st).

Definition winCondition (r : Resource) : bool :=
  Qleb 100 (oxygen r) && Qleb 100 (water r) && Qleb 15 (temperature r).

Definition winEffect (render st : State) : State :=
  if gameLost render then st
  else if winCondition (resources render) then setGameWon true st
  else st.

(** Game over cleanup. *)
Definition cleanupEffect (render st : State) : State :=
  if gameLost render
  then setEventCooldowns (fun _ => ∅) (setCurrentEvent None st)
  else st.

(** The effects of one render, all reading that render. *)
Definition commit (s : State) : State :=
  cleanupEffect s (winEffect s (criticalEffect s s)).

(** ** The session: renders, callbacks and the event interval

    A callback runs against the current state, reading whatever it closed
    over from the render that created it.  Click handlers and the action
    dispatcher may come from any render of the session so far; the event
    interval keeps the render of the effect run that created it. *)

Inductive Callback :=
| OnGenerate (type : ResourceKey)
| OnPurchase (upgrade : Upgrade)
| OnToggleEvents
| OnDrain
| OnCountdown
| OnEventRoll (currentTime : Z) (r1 r2 : Q)
| OnEventTimeout.

Definition fire (render : State) (cb : Callback) (st : State) : State :=
  match cb with
  | OnGenerate type => handleAction render type st
  | OnPurchase upgrade => purchaseUpgrade render upgrade st
  | OnToggleEvents => setEventsEnabled (negb (eventsEnabled render)) st
  | OnDrain => drainTick st
  | OnCountdown => countdownTick st
  | OnEventRoll currentTime r1 r2 => eventTick render currentTime r1 r2 st
  | OnEventTimeout => setCurrentEvent None st
  end.

(** The guards under which the effects keep their intervals. *)
Definition drainActive (s : State) : bool :=
  gameStarted s && negb (gameWon s) && negb (gameLost s).

Definition countdownActive (s : State) : bool :=
  gameStarted s && negb (gameWon s) && negb (gameLost s)
  && isCritical (resources s).

Definition eventRollActive (s : State) : bool :=
  gameStarted s && negb (gameWon s) && negb (gameLost s) && eventsEnabled s.

Definition eventEffectDeps (s : State) : bool * bool * bool * bool :=
  (gameWon s, gameLost s, gameStarted s, eventsEnabled s).

(** The event generation effect between two consecutive renders: untouched
    when its dependencies are unchanged, otherwise the old interval is
    cleared and a new one created if the guard passes. *)
Definition eventEffect (prevRender render : State) (interval : option State)
  : option State :=
  if bool_decide (eventEffectDeps prevRender = eventEffectDeps render)
  then interval
  else if eventRollActive render then Some render else None.

Record Session := mkSession {
  current : State;
  past : list State;
  eventInterval : option State
}.

Definition initialSession : Session := mkSession initialState [] None.

Definition renders (a : Session) : list State := current a :: past a.

(** Running callback [cb], created in [render], in session [a]. *)
Definition deliver (render : State) (cb : Callback) (a : Session) : Session :=
  let s0 := current a in
  let s1 := fire render cb s0 in
  let s2 := commit s1 in
  mkSession s2 (s1 :: s0 :: past a)
    (eventEffect s1 s2 (eventEffect s0 s1 (eventInterval a))).

Definition isRandom (r : Q) : Prop := 0 <= r /\ r < 1.

(** When [cb], closed over [render], can run in [a]. *)
Definition canRun (a : Session) (render : State) (cb : Callback) : Prop :=
  match cb with
  | OnGenerate _ => In render (renders a)
  | OnPurchase upgrade => In render (renders a) /\ In upgrade (upgrades render)
  | OnToggleEvents => render = current a
  | OnDrain => render = current a /\ drainActive (current a) = true
  | OnCountdown => render = current a /\ countdownActive (current a) = true
  | OnEventRoll _ r1 r2 =>
      eventInterval a = Some render /\ isRandom r1 /\ isRandom r2
  | OnEventTimeout => render = current a
  end.

Inductive reachable : Session -> Prop :=
| reach_init : reachable initialSession
| reach_step a render cb :
    reachable a -> canRun a render cb -> reachable (deliver render cb a).

(** ** The agent ([agent.ts]): [parseAction], [getDefaultActions] and the
       result of [getNextActions]

    The message history is written but never read on the way to the result,
    so it is left out.  A thrown exception is [None]. *)

Module Agent.

Inductive ActionType := generate | purchase.

(** [target] is [undefined] when the action string has no second piece. *)
Record GameAction := mkAction {
  type : ActionType;
  target : option string
}.

(** A parsed JSON value; the fields of an object in order, keys distinct. *)
Inductive JSON :=
| JNull
| JBool (b : bool)
| JNumber (q : Q)
| JString (s : string)
| JArray (items : list JSON)
| JObject (fields : list (string * JSON)).

(** [s.split(sep)] for a one-character separator. *)
Fixpoint split (sep : ascii) (s : string) : list string :=
  match s with
  | EmptyString => [EmptyString]
  | String c rest =>
      if Ascii.eqb c sep then EmptyString :: split sep rest
      else match split sep rest with
           | piece :: pieces => String c piece :: pieces
           | [] => [String c EmptyString]
           end
  end.

Definition defaultAction : GameAction := mkAction generate (Some "energy").

Definition parseAction (actionStr : string) : GameAction :=
  let pieces := split ":"%char actionStr in
  let target := pieces !! 1%nat in
  match pieces !! 0%nat with
  | Some type =>
      if String.eqb type "generate" then mkAction generate target
      else if String.eqb type "purchase" then mkAction purchase target
      else defaultAction
  | None => defaultAction
  end.

Definition getDefaultActions : list GameAction :=
  map (fun i =>
         if (i mod 3 =? 0)%nat then mkAction generate (Some "energy")
         else if (i mod 3 =? 1)%nat then mkAction generate (Some "oxygen")
         else mkAction generate (Some "water"))
      (seq 0 10).

(** [parsedResponse.actions]: a [TypeError] on [null], [undefined] on a value
    without that property. *)
Definition lookupField (key : string) (fields : list (string * JSON))
  : option JSON :=
  snd <$> List.find (fun kv => String.eqb (fst kv) key) fields.

Definition getActionsField (parsedResponse : JSON) : option (option JSON) :=
  match parsedResponse with
  | JNull => None
  | JObject fields => Some (lookupField "actions" fields)
  | _ => Some None
  end.

(** [parsedResponse.actions.map((action: string) => this.parseAction(action))]:
    [action.split] is a [TypeError] on an entry that is not a string. *)
Fixpoint mapParseAction (items : list JSON) : option (list GameAction) :=
  match items with
  | [] => Some []
  | JString s :: rest =>
      match mapParseAction rest with
      | Some acts => Some (parseAction s :: acts)
      | None => None
      end
  | _ :: _ => None
  end.

(** What [openai.chat.completions.create] did: it threw, or it resolved with
    [response.choices[0]?.message?.content]. *)
Inductive Completion :=
| ApiError
| Reply (content : option string).

Section GetNextActions.

(** [JSON.parse]; [None] is its [SyntaxError]. *)
Variable JSON_parse : string -> option JSON.

(** The inner [try] block; [None] when it throws, [Some None] when it falls
    through. *)
Definition tryParse (actionsText : string)
  : option (option (list GameAction)) :=
  match JSON_parse actionsText with
  | None => None
  | Some parsedResponse =>
      match getActionsField parsedResponse with
      | None => None
      | Some (Some (JArray items)) =>
          if (length items =? 10)%nat
          then match mapParseAction items with
               | Some acts => Some (Some acts)
               | None => None
               end
          else Some None
      | Some _ => Some None
      end
  end.

Definition getNextActions (c : Completion) : list GameAction :=
  match c with
  | ApiError => getDefaultActions
  | Reply None => getDefaultActions
  | Reply (Some EmptyString) => getDefaultActions
  | Reply (Some actionsText) =>
      match tryParse actionsText with
      | Some (Some acts) => acts
      | _ => getDefaultActions
      end
  end.

End GetNextActions.

End Agent.

(** * Specification-side notions *)

(** ** The multiplier stack *)

(** The upgrades [getMultiplier] folds over. *)
Definition purchasedOfType (ups : list Upgrade) (type : ResourceKey)
  : list Upgrade :=
  List.filter (fun u => bool_decide (resourceType u = type) && purchased u) ups.

(** The product of a list of numbers, the empty product being 1. *)
Definition product (qs : list Q) : Q := fold_right Qmult 1 qs.

(** The multiplier stack in the specification's words: the product of
    [multiplier] over the purchased upgrades of the given type, the empty
    product being 1. *)
Fixpoint stackProduct (ups : list Upgrade) (type : ResourceKey) : Q :=
  match ups with
  | [] => 1
  | u :: rest =>
      if purchased u && bool_decide (resourceType u = type)
      then multiplier u * stackProduct rest type
      else stackProduct rest type
  end.

(** ** Clamp ranges *)

Definition inRange (r : Resource) : Prop :=
  (0 <= oxygen r /\ oxygen r <= 100)
  /\ (0 <= water r /\ water r <= 100)
  /\ (-60 <= temperature r /\ temperature r <= 50)
  /\ (0 <= energy r /\ energy r <= 100).

Definition nonnegMultipliers (ups : list Upgrade) : Prop :=
  Forall (fun u => 0 <= multiplier u) ups.

(** ** Invariants of a session *)

(** Before the first action nothing has moved. *)
Definition fresh (s : State) : Prop :=
  gameStarted s = false ->
  resources s = initialResources /\ gameWon s = false /\ gameLost s = false.

Definition good (s : State) : Prop :=
  inRange (resources s) /\ nonnegMultipliers (upgrades s) /\ fresh s.

Definition sessionInv (a : Session) : Prop :=
  Forall good (renders a)
  /\ (gameStarted (current a) = false ->
      Forall (fun s => gameStarted s = false) (past a))
  /\ (is_Some (eventInterval a) <-> eventRollActive (current a) = true).

(** ** The critical/countdown state machine *)

Inductive Phase :=
| Safe
| Critical (countdown : Z)
| Lost.

(** The phase a state is in; [Won] is tracked by [gameWon] on the side. *)
Definition phase (s : State) : Phase :=
  if gameLost s then Lost
  else if (criticalTimer s =? 0)%Z then Safe
  else Critical (countdownSeconds s).

(** Some monitored resource is at or below 5. *)
Definition monitoredLow (r : Resource) : Prop :=
  oxygen r <= 5 \/ water r <= 5 \/ energy r <= 5.

(** One step of an uninterrupted critical episode: the countdown callback
    followed by the effects of the render it causes. *)
Definition countdownStep (s : State) : State := commit (countdownTick s).

(** ** Generation in the specification's words

    A successful [generate(type)]: the session is marked started, 2 credits
    are awarded, and
    - for energy, [8 * multiplier(energy)] is added to energy, capped at 100;
    - otherwise [baseGain * multiplier(type) * efficiency] is added to the
      resource, with [efficiency] the energy before the call over 100 and
      [baseGain] 3 for oxygen and water and 0.3 for temperature, capped at
      100 (50 for temperature), and 10 is taken from energy, floored at 0.
    The multiplier is the product of the purchased upgrades, [stackProduct]. *)
Definition generated (type : ResourceKey) (s : State) : State :=
  let r := resources s in
  let efficiency := energy r / 100 in
  let gain b := b * stackProduct (upgrades s) type * efficiency in
  let spent := Qmax 0 (energy r - 10) in
  let r' :=
    match type with
    | Oxygen =>
        mkResource (Qmin 100 (oxygen r + gain 3)) (water r) (temperature r) spent
    | Water =>
        mkResource (oxygen r) (Qmin 100 (water r + gain 3)) (temperature r) spent
    | Temperature =>
        mkResource (oxygen r) (water r)
          (Qmin 50 (temperature r + gain 0.3)) spent
    | Energy =>
        mkResource (oxygen r) (water r) (temperature r)
          (Qmin 100 (energy r + 8 * stackProduct (upgrades s) Energy))
    end in
  mkState r' (credits s + 2) (currentEvent s) (gameWon s) (gameLost s)
    (criticalTimer s) (countdownSeconds s) (upgrades s) true
    (eventsEnabled s) (eventCooldowns s).

(** ** Purchases

    [s] with the session marked started, which is all a rejected call does. *)
Definition started (s : State) : State :=
  if gameStarted s then s else setGameStarted true s.

(** The upgrade list after buying [upgrade]: the entries carrying its id are
    purchased, every entry is otherwise what it was. *)
Definition bought (upgrade : Upgrade) (before after : list Upgrade) : Prop :=
  Forall2 (fun x y =>
             id y = id x /\ name y = name x /\ cost y = cost x
             /\ resourceType y = resourceType x
             /\ multiplier y = multiplier x
             /\ purchased y = (if String.eqb (id x) (id upgrade) then true
                               else purchased x))
          before after.

(** ** Starting the session *)

(** The callbacks behind [generate] and [purchase]. *)
Definition isAction (cb : Callback) : bool :=
  match cb with
  | OnGenerate _ | OnPurchase _ => true
  | _ => false
  end.

Definition oxygen1 : Upgrade :=
  mkUpgrade "oxygen1" "Basic Oxygen Generator" 80 Oxygen 1.2 false.

(** ** The event interval at work *)

(** The event interval firing in session [a]: its callback belongs to the
    render the interval was created in. *)
Definition roll (currentTime : Z) (r1 r2 : Q) (a : Session) : Session :=
  match eventInterval a with
  | Some render => deliver render (OnEventRoll currentTime r1 r2) a
  | None => a
  end.

(** A session with events enabled and then started by one click. *)
Definition playing : Session :=
  let enabled := deliver initialState OnToggleEvents initialSession in
  deliver (current enabled) (OnGenerate Energy) enabled.

(** [e] is the event on display in [s]. *)
Definition showing (s : State) : option string := eid <$> currentEvent s.

(** ** Action strings in the specification's words *)

(** [s] has the form [kind:target] with [kind] one of the two action
    kinds. *)
Definition hasForm (s : string) : Prop :=
  exists kind target,
    s = (kind ++ ":" ++ target)%string
    /\ (kind = "generate" \/ kind = "purchase").

(** The text of [s] before its first colon. *)
Fixpoint beforeColon (s : string) : string :=
  match s with
  | EmptyString => EmptyString
  | String c rest =>
      if Ascii.eqb c ":" then EmptyString else String c (beforeColon rest)
  end.

(** The text of [s] between its first and its second colon, if it has a
    colon at all. *)
Fixpoint afterColon (s : string) : option string :=
  match s with
  | EmptyString => None
  | String c rest =>
      if Ascii.eqb c ":" then Some (beforeColon rest) else afterColon rest
  end.

(** The fixed default pattern. *)
Definition cyclicTarget (i : nat) : string :=
  match (i mod 3)%nat with
  | O => "energy"
  | S O => "oxygen"
  | _ => "water"
  end.

(** A reply carrying ten times the bare word [generate]. *)
Definition bareReply : Agent.JSON :=
  Agent.JObject
    [("actions", Agent.JArray (repeat (Agent.JString "generate") 10))].

(** * The rest of the agent, of the component and the observer *)

From Stdlib Require Import Qabs.

(** ** The agent's message history ([agent.ts])

    What [getNextActions] does to the history it keeps.  The text of the
    instruction turn is a parameter, and so is the state message:
    [formatGameState] builds it from the snapshot without reading the
    history. *)

Module AgentLog.

Inductive Role := system | user | assistant.

Record Message := mkMessage {
  role : Role;
  content : string
}.

(** [h.slice(-n)] *)
Definition lastN {A : Type} (n : nat) (h : list A) : list A :=
  drop (length h - n) h.

(** Keep only the last 100 messages: the first one and the last 99. *)
Definition capHistory (h : list Message) : list Message :=
  if (100 <? length h)%nat
  then match h with
       | first :: _ => first :: lastN 99 h
       | [] => []
       end
  else h.

Section Calls.

Variable SYSTEM_PROMPT : string.

(** The constructor. *)
Definition newHistory : list Message := [mkMessage system SYSTEM_PROMPT].

(** [getNextActions] as far as its [await]: the state message is pushed and
    the history cut; what is left is the [messages] handed to
    [chat.completions.create]. *)
Definition request (stateMessage : string) (h : list Message)
  : list Message :=
  capHistory (h ++ [mkMessage user stateMessage]).

(** [getNextActions] from its [await] on: a reply with content is pushed as
    an assistant turn, parsed or not, and the history is not cut again. *)
Definition response (c : Agent.Completion) (h : list Message)
  : list Message :=
  match c with
  | Agent.Reply (Some (String ch text)) =>
      h ++ [mkMessage assistant (String ch text)]
  | _ => h
  end.

(** What happens to the history, in the order it happens: a call starts, or
    the completion of a call that has started comes back.  [App] starts a
    call every 5 s without waiting for the last one, so other calls may
    start or come back between the two halves of a call. *)
Inductive Step :=
| Start (stateMessage : string)
| Finish (c : Agent.Completion).

(** The history after [steps], with the number of calls then waiting for
    their completion, from a history with [k] calls waiting.  [None] when a
    completion comes back that no call waits for, or when more than [n]
    calls would be waiting at once. *)
Fixpoint run (n : nat) (steps : list Step) (h : list Message) (k : nat)
  : option (list Message * nat) :=
  match steps with
  | [] => Some (h, k)
  | Start stateMessage :: rest =>
      if (k <? n)%nat then run n rest (request stateMessage h) (S k)
      else None
  | Finish c :: rest =>
      match k with
      | O => None
      | S k' => run n rest (response c h) k'
      end
  end.

End Calls.

End AgentLog.

(** ** Notions for the component's invariants *)

(** [v] is the catalogue entry [u], its [purchased] flag aside. *)
Definition sameEntry (u v : Upgrade) : Prop :=
  id v = id u /\ name v = name u /\ cost v = cost u
  /\ resourceType v = resourceType u /\ multiplier v = multiplier u.

(** The list is the initial catalogue, entry by entry, up to the flags. *)
Definition catalogue (ups : list Upgrade) : Prop :=
  Forall2 sameEntry initialUpgrades ups.

(** The credits that went into the purchased upgrades. *)
Fixpoint spent (ups : list Upgrade) : Z :=
  match ups with
  | [] => 0
  | u :: rest => if purchased u then cost u + spent rest else spent rest
  end.

(** What the critical flag and the countdown can be, given the rest of the
    state. *)
Definition timersConsistent (s : State) : Prop :=
  (criticalTimer s = 0 \/ criticalTimer s = 1)%Z
  /\ (0 <= countdownSeconds s <= 30)%Z
  /\ (criticalTimer s = 0%Z -> countdownSeconds s = 30%Z)
  /\ (gameLost s = false -> (1 <= countdownSeconds s)%Z)
  /\ (gameLost s = true ->
      countdownSeconds s = 0%Z /\ criticalTimer s = 1%Z)
  /\ (gameStarted s = true -> gameWon s = false -> gameLost s = false ->
      (criticalTimer s = 1%Z <-> isCritical (resources s) = true)).

(** No field of [r] is above the same field of [r']. *)
Definition below (r r' : Resource) : Prop :=
  oxygen r <= oxygen r' /\ water r <= water r'
  /\ temperature r <= temperature r' /\ energy r <= energy r'.

(** ** The action dispatcher ([App.tsx], the effect that executes pending
       actions) *)







(** The part of [timersConsistent] that does not look at the resources. *)
Definition timersBounded (s : State) : Prop :=
  (criticalTimer s = 0 \/ criticalTimer s = 1)%Z
  /\ (0 <= countdownSeconds s <= 30)%Z
  /\ (criticalTimer s = 0%Z -> countdownSeconds s = 30%Z)
  /\ (gameLost s = false -> (1 <= countdownSeconds s)%Z)
  /\ (gameLost s = true ->
      countdownSeconds s = 0%Z /\ criticalTimer s = 1%Z).

(** A session started by one click and left to its countdown for [n]
    ticks. *)
Definition ticking (n : nat) : Session :=
  Nat.iter n (fun a => deliver (current a) OnCountdown a)
    (deliver initialState (OnGenerate Energy) initialSession).

(** The effect of the energy surge, the last event of the catalogue. *)
Definition energySurgeEffect (res : Resource) : Resource :=
  mkResource (oxygen res) (water res) (temperature res)
    (Qmax 0 (energy res - 30)).

(** A session in which energy has been generated [n] times and nothing else
    has happened. *)
Definition earning (n : nat) : Session :=
  Nat.iter n (fun a => deliver (current a) (OnGenerate Energy) a)
    initialSession.

(** ** The snapshot handed to the agent ([App.tsx], [makeRequest]) *)

Record GameState := mkGameState {
  gs_resources : Resource;
  gs_credits : Z;
  gs_upgrades : list Upgrade;
  gs_gameWon : bool;
  gs_gameLost : bool;
  gs_criticalTimer : option Z
}.

Definition makeGameState (state : State) : GameState :=
  mkGameState (resources state) (credits state) (upgrades state)
    (gameWon state) (gameLost state)
    (if (0 <? criticalTimer state)%Z then Some (countdownSeconds state)
     else None).

(** ** The observer ([observer.ts])

    [getAnalysis] with the state it keeps.  The instruction text and
    [formatGameStateWithHistory], which builds the state message from the
    snapshot and the windowed history, are parameters.  A JSON value stands
    for each field of the analysis, since [x || []] hands back whatever
    truthy value the reply carries. *)

Module Observer.

Record GameHistory := mkGameHistory {
  timestamp : Z;
  h_resources : Resource;
  h_credits : Z;
  purchasedUpgrades : list string;
  h_criticalTimer : option Z
}.

Record Analysis := mkAnalysis {
  strengths : Agent.JSON;
  concerns : Agent.JSON;
  suggestions : Agent.JSON
}.

Record ObserverState := mkObserverState {
  messageHistory : list AgentLog.Message;
  gameHistory : list GameHistory;
  lastAnalysisTime : Z
}.

Definition ANALYSIS_INTERVAL : Z := 10000.

Definition getDefaultAnalysis : Analysis :=
  mkAnalysis
    (Agent.JArray [Agent.JString "Maintaining basic resource generation"])
    (Agent.JArray [Agent.JString "Resource levels need attention"])
    (Agent.JArray [Agent.JString "Focus on energy efficiency";
                   Agent.JString "Consider strategic upgrades"]).

(** The entry pushed for a snapshot taken at [currentTime]. *)
Definition snapshot (currentTime : Z) (gameState : GameState) : GameHistory :=
  mkGameHistory currentTime (gs_resources gameState) (gs_credits gameState)
    (map id (List.filter purchased (gs_upgrades gameState)))
    (gs_criticalTimer gameState).

(** Push the snapshot and keep the last 5 minutes. *)
Definition recordSnapshot (currentTime : Z) (gameState : GameState)
  (history : list GameHistory) : list GameHistory :=
  let fiveMinutesAgo := (currentTime - 5 * 60 * 1000)%Z in
  List.filter (fun h => (fiveMinutesAgo <? timestamp h)%Z)
    (history ++ [snapshot currentTime gameState]).

(** [v.key]: a [TypeError] on [null], [undefined] on a value without that
    property. *)
Definition getProp (key : string) (v : Agent.JSON)
  : option (option Agent.JSON) :=
  match v with
  | Agent.JNull => None
  | Agent.JObject fields => Some (Agent.lookupField key fields)
  | _ => Some None
  end.

(** Truthiness of a value that may be [undefined]. *)
Definition truthy (v : option Agent.JSON) : bool :=
  match v with
  | None => false
  | Some Agent.JNull => false
  | Some (Agent.JBool b) => b
  | Some (Agent.JNumber q) => negb (Qeq_bool q 0)
  | Some (Agent.JString s) => negb (String.eqb s EmptyString)
  | Some _ => true
  end.

(** [analysis.key || []] for a truthy [analysis]. *)
Definition fieldOr (key : string) (analysis : Agent.JSON) : Agent.JSON :=
  match getProp key analysis with
  | Some (Some v) => if truthy (Some v) then v else Agent.JArray []
  | _ => Agent.JArray []
  end.

(** [getArrow] of [calculateTrends]. *)
Definition getArrow (current previous : Q) : string :=
  let diff := current - previous in
  if Qltb (Qabs diff) 0.1 then "→"
  else if Qltb 0 diff then "↑" else "↓".

Record Trends := mkTrends {
  t_oxygen : string;
  t_water : string;
  t_temperature : string;
  t_energy : string;
  t_credits : string
}.

Definition calculateTrends (history : list GameHistory) : Trends :=
  match history, last history with
  | previous :: _ :: _, Some current =>
      mkTrends
        (getArrow (oxygen (h_resources current))
           (oxygen (h_resources previous)))
        (getArrow (water (h_resources current))
           (water (h_resources previous)))
        (getArrow (temperature (h_resources current))
           (temperature (h_resources previous)))
        (getArrow (energy (h_resources current))
           (energy (h_resources previous)))
        (getArrow (inject_Z (h_credits current))
           (inject_Z (h_credits previous)))
  | _, _ => mkTrends "" "" "" "" ""
  end.

Section Calls.

Variable JSON_parse : string -> option Agent.JSON.

Variable formatGameStateWithHistory : GameState -> list GameHistory -> string.

(** The inner [try] block; [None] when it throws, [Some None] when it falls
    through. *)
Definition tryParse (analysisText : string) : option (option Analysis) :=
  match JSON_parse analysisText with
  | None => None
  | Some parsedResponse =>
      match getProp "analysis" parsedResponse with
      | None => None
      | Some (Some analysis) =>
          if truthy (Some analysis)
          then Some (Some (mkAnalysis (fieldOr "strengths" analysis)
                             (fieldOr "concerns" analysis)
                             (fieldOr "suggestions" analysis)))
          else Some None
      | Some None => Some None
      end
  end.

(** [getAnalysis] at [Date.now() = currentTime]; [c] is what the completion
    call does if it is made. *)
Definition getAnalysis (currentTime : Z) (gameState : GameState)
  (c : Agent.Completion) (o : ObserverState) : Analysis * ObserverState :=
  let history := recordSnapshot currentTime gameState (gameHistory o) in
  if (currentTime - lastAnalysisTime o <? ANALYSIS_INTERVAL)%Z
  then (getDefaultAnalysis,
        mkObserverState (messageHistory o) history (lastAnalysisTime o))
  else
    let stateMessage := formatGameStateWithHistory gameState history in
    let messages := AgentLog.request stateMessage (messageHistory o) in
    match c with
    | Agent.ApiError =>
        (getDefaultAnalysis, mkObserverState messages history currentTime)
    | Agent.Reply None =>
        (getDefaultAnalysis, mkObserverState messages history currentTime)
    | Agent.Reply (Some EmptyString) =>
        (getDefaultAnalysis, mkObserverState messages history currentTime)
    | Agent.Reply (Some analysisText) =>
        let messages :=
          messages ++ [AgentLog.mkMessage AgentLog.assistant analysisText] in
        (match tryParse analysisText with
         | Some (Some analysis) => analysis
         | _ => getDefaultAnalysis
         end,
         mkObserverState messages history currentTime)
    end.

(** [getAnalysis] as far as its [await], or its [return] when the call is
    throttled: the state left behind, and whether a completion is now
    waited for. *)
Definition ask (currentTime : Z) (gameState : GameState) (o : ObserverState)
  : ObserverState * bool :=
  let history := recordSnapshot currentTime gameState (gameHistory o) in
  if (currentTime - lastAnalysisTime o <? ANALYSIS_INTERVAL)%Z
  then (mkObserverState (messageHistory o) history (lastAnalysisTime o), false)
  else
    let stateMessage := formatGameStateWithHistory gameState history in
    (mkObserverState (AgentLog.request stateMessage (messageHistory o))
       history currentTime, true).

(** [getAnalysis] from its [await] on. *)
Definition answer (c : Agent.Completion) (o : ObserverState) : ObserverState :=
  mkObserverState (AgentLog.response c (messageHistory o)) (gameHistory o)
    (lastAnalysisTime o).

(** The calls of an observer in the order their halves run; see
    [AgentLog.Step]. *)
Inductive Step :=
| Ask (currentTime : Z) (gameState : GameState)
| Answer (c : Agent.Completion).

(** The observer after [steps], with the number of calls then waiting;
    [None] as for [AgentLog.run]. *)
Fixpoint run (n : nat) (steps : list Step) (o : ObserverState) (k : nat)
  : option (ObserverState * nat) :=
  match steps with
  | [] => Some (o, k)
  | Ask currentTime gameState :: rest =>
      match ask currentTime gameState o with
      | (o', true) => if (k <? n)%nat then run n rest o' (S k) else None
      | (o', false) => run n rest o' k
      end
  | Answer c :: rest =>
      match k with
      | O => None
      | S k' => run n rest (answer c o) k'
      end
  end.

End Calls.

End Observer.

(** The observer as its constructor leaves it. *)
Definition newObserver (SYSTEM_PROMPT : string) : Observer.ObserverState :=
  Observer.mkObserverState
    [AgentLog.mkMessage AgentLog.system SYSTEM_PROMPT] [] 0.

(** ** Handlers of an older render at work

    The dispatcher's interval keeps the [handleAction], [purchaseUpgrade]
    and [upgrades] of the render in which its effect last ran (dependency
    list [isAgentPlaying, pendingActions, gameStarted]); a click or a drain
    tick between two of its ticks leaves it with values that are no longer
    the current ones. *)

(** A click: the handler of the render on screen. *)
Definition click (cb : Callback) (a : Session) : Session :=
  deliver (current a) cb a.

(** Nine generations of oxygen take the energy from 100 to 10; the last of
    them leaves the render the dispatcher's handler belongs to. *)
Definition spentDown : Session :=
  Nat.iter 9 (click (OnGenerate Oxygen)) initialSession.

(** The drain tick that follows takes the energy to 9.4. *)
Definition drained : Session := deliver (current spentDown) OnDrain spentDown.

Definition energy1 : Upgrade :=
  mkUpgrade "energy1" "Solar Array" 150 Energy 1.3 false.

(** 60 generations, the last three of oxygen, leave 150 credits and the
    energy at 70. *)
Definition saved : Session :=
  Nat.iter 3 (click (OnGenerate Oxygen)) (earning 57).

(** A click on the card of [energy1]. *)
Definition upgraded : Session := click (OnPurchase energy1) saved.

(** 25 generations leave 80 credits; then a click on the card of
    [oxygen1]. *)
Definition clicked : Session := click (OnPurchase oxygen1) (earning 25).

(** ** Wall-clock time: the drain and the countdown intervals

    Time in ms.  An interval is kept as the time it is due next.  The drain
    effect lists [gameWon, gameLost, gameStarted] as its dependencies, the
    critical effect [resources, gameWon, gameLost, criticalTimer,
    gameStarted]: whenever a dependency has changed from one render to the
    next, the cleanup clears the interval and the effect creates a new one
    if its guard passes, due a full period later.  [resources] is compared
    as an object, and every updater handed to [setResources] returns a new
    one.  As in a [Session], the renders a callback causes and their
    effects are done before the next callback runs; they are taken to take
    no time, and of two intervals due at the same instant the one created
    first runs first.  Clicks may come at any time; the event interval and
    the dispatcher's are not on this clock. *)

Definition drainEffectDeps (s : State) : bool * bool * bool :=
  (gameWon s, gameLost s, gameStarted s).

(** The dependencies of the critical effect, [resources] aside. *)
Definition criticalEffectDeps (s : State) : bool * bool * Z * bool :=
  (gameWon s, gameLost s, criticalTimer s, gameStarted s).

(** Whether [cb], created in [render], hands [setResources] an updater. *)
Definition writesResources (render : State) (cb : Callback) : bool :=
  match cb with
  | OnGenerate type =>
      if gameWon render || gameLost render then false
      else match type with
           | Energy => true
           | _ => negb (Qltb (energy (resources render)) 10)
           end
  | OnDrain => true
  | OnEventRoll currentTime r1 r2 =>
      match selectEvent (eventCooldowns render) currentTime r1 r2 with
      | Some _ => true
      | None => false
      end
  | _ => false
  end.

Definition drainEffect (prevRender render : State) (t : Z)
  (interval : option Z) : option Z :=
  if bool_decide (drainEffectDeps prevRender = drainEffectDeps render)
  then interval
  else if drainActive render then Some (t + 3000)%Z else None.

Definition countdownEffect (newResources : bool) (prevRender render : State)
  (t : Z) (interval : option Z) : option Z :=
  if negb newResources
     && bool_decide (criticalEffectDeps prevRender = criticalEffectDeps render)
  then interval
  else if countdownActive render then Some (t + 1000)%Z else None.

Record Clock := mkClock {
  elapsed : Z;
  session : Session;
  drainInterval : option Z;
  countdownInterval : option Z
}.

(** Callback [cb], created in [render], running at time [t]: an interval
    that ran is due again a period later; then come the effects of the
    render the callback causes and of the render those effects cause. *)
Definition runAt (t : Z) (render : State) (cb : Callback) (c : Clock)
  : Clock :=
  let s0 := current (session c) in
  let s1 := fire render cb s0 in
  let s2 := commit s1 in
  let drain0 :=
    match cb with
    | OnDrain => Some (t + 3000)%Z
    | _ => drainInterval c
    end in
  let countdown0 :=
    match cb with
    | OnCountdown => Some (t + 1000)%Z
    | _ => countdownInterval c
    end in
  mkClock t (deliver render cb (session c))
    (drainEffect s1 s2 t (drainEffect s0 s1 t drain0))
    (countdownEffect false s1 s2 t
       (countdownEffect (writesResources render cb) s0 s1 t countdown0)).

(** The interval that runs next and when; the drain interval, created
    when the session starts, goes first when both are due. *)
Definition nextTimer (c : Clock) : option (Z * Callback) :=
  match drainInterval c, countdownInterval c with
  | Some d, Some k => if (d <=? k)%Z then Some (d, OnDrain)
                      else Some (k, OnCountdown)
  | Some d, None => Some (d, OnDrain)
  | None, Some k => Some (k, OnCountdown)
  | None, None => None
  end.

(** The intervals left to themselves up to time [limit]. *)
Fixpoint runUntil (fuel : nat) (limit : Z) (c : Clock) : Clock :=
  match fuel with
  | O => c
  | S fuel =>
      match nextTimer c with
      | Some (t, cb) =>
          if (t <=? limit)%Z
          then runUntil fuel limit (runAt t (current (session c)) cb c)
          else c
      | None => c
      end
  end.

(** A fresh game started by one click at time 0 and left alone. *)
Definition leftAlone : Clock :=
  runAt 0 initialState (OnGenerate Energy) (mkClock 0 initialSession None None).

(** [n] clicks on Generate Power, [period] ms apart, with the intervals
    that are due before each click running first. *)
Fixpoint clicking (period : Z) (n : nat) (c : Clock) : Clock :=
  match n with
  | O => c
  | S n =>
      let t := (elapsed c + period)%Z in
      let c := runUntil 100 (t - 1) c in
      clicking period n (runAt t (current (session c)) (OnGenerate Energy) c)
  end.

(** The intervals of a clock exist only under their guards. *)
Definition clockInv (c : Clock) : Prop :=
  reachable (session c)
  /\ (is_Some (drainInterval c) -> drainActive (current (session c)) = true)
  /\ (is_Some (countdownInterval c) ->
      countdownActive (current (session c)) = true).

(** * Properties *)

(** ** Arithmetic on [Q] *)

Lemma Qleb_le x y : Qleb x y = true <-> x <= y.
Proof. apply Qle_bool_iff. Qed.

Lemma Qleb_gt x y : Qleb x y = false <-> y < x.
Proof.
  unfold Qleb. rewrite <- not_true_iff_false, Qle_bool_iff.
  split; [apply Qnot_le_lt | apply Qlt_not_le].
Qed.

Lemma Qltb_lt x y : Qltb x y = true <-> x < y.
Proof. unfold Qltb. rewrite negb_true_iff. apply Qleb_gt. Qed.

Lemma Qltb_ge x y : Qltb x y = false <-> y <= x.
Proof. unfold Qltb. rewrite negb_false_iff. apply Qleb_le. Qed.

Lemma efficiency_bounds e : 0 <= e -> e <= 100 -> 0 <= e / 100 <= 1.
Proof.
  intros H0 H1. split.
  - apply Qle_shift_div_l; lra.
  - apply Qle_shift_div_r; lra.
Qed.

Lemma Qmult_1_l_eq (x : Q) : 1 * x = x.
Proof. destruct x as [n d]. unfold Qmult. simpl. now destruct n. Qed.

Lemma Qmult_assoc_eq (x y z : Q) : x * (y * z) = x * y * z.
Proof.
  unfold Qmult. simpl. now rewrite Z.mul_assoc, Pos.mul_assoc.
Qed.

(** ** The multiplier stack *)

Lemma fold_left_mult_product (us : list Upgrade) (acc : Q) :
  fold_left (fun mult upgrade => mult * multiplier upgrade) us acc
  = acc * product (map multiplier us).
Proof.
  revert acc. induction us as [|u us IH]; intros acc; simpl.
  - destruct acc as [n d]. unfold Qmult. simpl.
    now rewrite Z.mul_1_r, Pos.mul_1_r.
  - rewrite IH. symmetry. apply Qmult_assoc_eq.
Qed.

Lemma purchasedOfType_spec ups type u :
  In u (purchasedOfType ups type)
  <-> In u ups /\ resourceType u = type /\ purchased u = true.
Proof.
  unfold purchasedOfType. rewrite filter_In, andb_true_iff, bool_decide_eq_true.
  tauto.
Qed.

Lemma stackProduct_filter ups type :
  stackProduct ups type = product (map multiplier (purchasedOfType ups type)).
Proof.
  induction ups as [|u rest IH]; simpl; [reflexivity|].
  rewrite (andb_comm (purchased u)).
  destruct (bool_decide (resourceType u = type) && purchased u); simpl;
    now rewrite IH.
Qed.

Lemma getMultiplier_stackProduct ups type :
  getMultiplier ups type = stackProduct ups type.
Proof.
  rewrite stackProduct_filter. unfold getMultiplier.
  fold (purchasedOfType ups type).
  rewrite fold_left_mult_product. apply Qmult_1_l_eq.
Qed.

(** C9.  For every resource type and every upgrade list, [getMultiplier] is
    the product of the multipliers of the purchased upgrades of that type,
    and it is 1 when no upgrade of that type is purchased. *)
Theorem getMultiplier_is_product (ups : list Upgrade) (type : ResourceKey) :
  getMultiplier ups type = stackProduct ups type
  /\ ((forall u, In u ups -> resourceType u = type -> purchased u = false)
      -> getMultiplier ups type = 1).
Proof.
  split; [apply getMultiplier_stackProduct|].
  intros Hnone. rewrite getMultiplier_stackProduct, stackProduct_filter.
  destruct (purchasedOfType ups type) as [|u rest] eqn:E; [reflexivity|].
  assert (Hin : In u (purchasedOfType ups type)) by (rewrite E; now left).
  apply purchasedOfType_spec in Hin as (Hu & Ht & Hp).
  rewrite (Hnone u Hu Ht) in Hp. discriminate.
Qed.

Lemma getMultiplier_is_product_witness :
  getMultiplier initialUpgrades Oxygen = 1.
Proof.
  apply (getMultiplier_is_product initialUpgrades Oxygen).
  intros u Hu _. simpl in Hu.
  repeat (destruct Hu as [<-|Hu]; [reflexivity|]). destruct Hu.
Defined.

(** ** Clamp ranges *)

Lemma initialResources_inRange : inRange initialResources.
Proof. unfold inRange, initialResources; simpl. lra. Qed.

Lemma initialUpgrades_nonneg : nonnegMultipliers initialUpgrades.
Proof.
  unfold nonnegMultipliers, initialUpgrades. repeat constructor; simpl; lra.
Qed.

Lemma getMultiplier_nonneg ups type :
  nonnegMultipliers ups -> 0 <= getMultiplier ups type.
Proof.
  intros Hups. rewrite getMultiplier_stackProduct.
  induction Hups as [|u rest Hu _ IH]; simpl; [lra|].
  destruct (purchased u && bool_decide (resourceType u = type)); [|exact IH].
  now apply Qmult_le_0_compat.
Qed.

Lemma gain_nonneg (b m e : Q) :
  0 <= b -> 0 <= m -> 0 <= e -> e <= 100 -> 0 <= b * m * (e / 100).
Proof.
  intros Hb Hm He0 He1.
  apply Qmult_le_0_compat; [now apply Qmult_le_0_compat|].
  now apply efficiency_bounds.
Qed.

Lemma raise_lower lo hi x g :
  lo <= hi -> lo <= x -> 0 <= g -> lo <= Qmin hi (x + g).
Proof.
  intros Hh Hx Hg. apply Q.min_glb; [exact Hh|].
  rewrite <- (Qplus_0_r lo). now apply Qplus_le_compat.
Qed.

Lemma lower_upper lo hi x d :
  lo <= hi -> x <= hi -> 0 <= d -> Qmax lo (x - d) <= hi.
Proof.
  intros Hh Hx Hd. apply Q.max_lub; [exact Hh|].
  rewrite <- (Qplus_0_r hi). unfold Qminus. apply Qplus_le_compat; [exact Hx|].
  rewrite <- (Qplus_le_l _ _ d). ring_simplify. exact Hd.
Qed.

Ltac clamp :=
  first [ apply Q.le_min_l
        | apply Q.le_max_l
        | apply raise_lower; [lra | tauto | try assumption; try lra]
        | apply lower_upper; [lra | tauto | try assumption; try lra] ].

Lemma handleAction_inRange render type st :
  nonnegMultipliers (upgrades render) ->
  inRange (resources st) ->
  inRange (resources (handleAction render type st)).
Proof.
  intros Hm (Ho & Hw & Ht & He).
  pose proof (getMultiplier_nonneg _ type Hm) as Hmul.
  unfold handleAction.
  destruct (gameStarted render), (gameWon render), (gameLost render); simpl;
    try (repeat split; tauto).
  all: destruct type; simpl;
    try destruct (Qltb (energy (resources render)) 10); simpl;
    try (repeat split; tauto).
  all: try (assert (Hg3 : 0 <= 3 * getMultiplier (upgrades render) Oxygen
                              * (energy (resources st) / 100))
              by (apply gain_nonneg; lra || tauto));
       try (assert (Hg3' : 0 <= 3 * getMultiplier (upgrades render) Water
                              * (energy (resources st) / 100))
              by (apply gain_nonneg; lra || tauto));
       try (assert (Hgt : 0 <= 0.3 * getMultiplier (upgrades render) Temperature
                              * (energy (resources st) / 100))
              by (apply gain_nonneg; lra || tauto));
       try (assert (Hg8 : 0 <= 8 * getMultiplier (upgrades render) Energy)
              by (apply Qmult_le_0_compat; lra)).
  all: unfold inRange; simpl; repeat split; try tauto; clamp.
Qed.

Lemma drain_inRange r : inRange r -> inRange (drain r).
Proof.
  intros (Ho & Hw & Ht & He).
  destruct (efficiency_bounds (energy r)) as [Hf0 Hf1]; [tauto..|].
  unfold drain. set (f := energy r / 100) in *.
  assert (H12 : 0 <= 1.2 * (2 - f)) by (apply Qmult_le_0_compat; lra).
  assert (H08 : 0 <= 0.8 * (2 - f)) by (apply Qmult_le_0_compat; lra).
  assert (H04 : 0 <= 0.4 * (2 - f)) by (apply Qmult_le_0_compat; lra).
  unfold inRange; simpl; repeat split; clamp.
Qed.

Lemma events_inRange :
  Forall (fun e => forall r, inRange r -> inRange (effect e r)) events.
Proof.
  apply List.Forall_forall. intros e Hin r (Ho & Hw & Ht & He).
  unfold events in Hin. simpl in Hin.
  repeat (destruct Hin as [<-|Hin];
          [unfold inRange; simpl; repeat split; try tauto; clamp|]).
  destruct Hin.
Qed.

Lemma selectEvent_In cooldowns currentTime r1 r2 e :
  selectEvent cooldowns currentTime r1 r2 = Some e ->
  In e events /\ isAvailable cooldowns currentTime e = true.
Proof.
  unfold selectEvent, availableEvents.
  destruct (Qltb r1 0.5); [|discriminate].
  destruct (0 <? _)%nat; [|discriminate].
  intros Hl. apply list_elem_of_lookup_2, list_elem_of_In in Hl.
  now apply filter_In in Hl.
Qed.

Lemma eventTick_inRange render currentTime r1 r2 st :
  inRange (resources st) ->
  inRange (resources (eventTick render currentTime r1 r2 st)).
Proof.
  intros Hr. unfold eventTick.
  destruct (selectEvent _ _ _ _) as [e|] eqn:E; simpl; [|exact Hr].
  apply selectEvent_In in E as [Hin _].
  pose proof events_inRange as Hall. rewrite List.Forall_forall in Hall.
  now apply Hall.
Qed.

Ltac commit_cases :=
  unfold commit, cleanupEffect, winEffect, criticalEffect;
  repeat (match goal with
          | |- context [if ?b then _ else _] => destruct b eqn:?
          end; simpl);
  congruence.

(** What [commit] leaves alone. *)
Lemma commit_resources s : resources (commit s) = resources s.
Proof.
  commit_cases.
Qed.

Lemma commit_upgrades s : upgrades (commit s) = upgrades s.
Proof.
  commit_cases.
Qed.

Lemma commit_gameStarted s : gameStarted (commit s) = gameStarted s.
Proof.
  commit_cases.
Qed.

Lemma commit_gameLost s : gameLost (commit s) = gameLost s.
Proof.
  commit_cases.
Qed.

Lemma commit_eventsEnabled s : eventsEnabled (commit s) = eventsEnabled s.
Proof.
  commit_cases.
Qed.

Lemma commit_critical s :
  criticalTimer (commit s) = criticalTimer (criticalEffect s s)
  /\ countdownSeconds (commit s) = countdownSeconds (criticalEffect s s).
Proof.
  unfold commit, cleanupEffect, winEffect.
  destruct (gameLost s), (winCondition (resources s)); simpl; tauto.
Qed.

Lemma commit_gameWon s :
  gameWon (commit s)
  = gameWon s || (negb (gameLost s) && winCondition (resources s)).
Proof.
  unfold commit, cleanupEffect, winEffect, criticalEffect.
  destruct (gameLost s), (winCondition (resources s)), (gameWon s) eqn:Ew,
    (gameStarted s), (isCritical (resources s)), (criticalTimer s =? 0)%Z;
    simpl; rewrite ?Ew; reflexivity.
Qed.

(** One pass of the effects settles the render: running them again on the
    result changes nothing. *)
Lemma commit_settles s : commit (commit s) = commit s.
Proof.
  unfold commit, cleanupEffect, winEffect, criticalEffect.
  destruct s as [r c ev w l ct cs us st en cd]; simpl.
  destruct l, st, w, (isCritical r) eqn:Ec, (winCondition r) eqn:Ew,
    (ct =? 0)%Z eqn:E;
    simpl; rewrite ?Ec, ?Ew, ?E; reflexivity.
Qed.

(** ** Invariants of a session *)

Ltac handler_cases :=
  repeat (match goal with
          | |- context [if ?b then _ else _] => destruct b eqn:?
          | |- context [match ?t with Oxygen => _ | _ => _ end] => destruct t
          end; simpl);
  try reflexivity; try congruence.

Lemma handleAction_gameStarted render type st :
  (gameStarted render = true -> gameStarted st = true) ->
  gameStarted (handleAction render type st) = true.
Proof.
  intros H. unfold handleAction.
  destruct (gameStarted render) eqn:E; simpl; handler_cases; now apply H.
Qed.

Lemma handleAction_upgrades render type st :
  upgrades (handleAction render type st) = upgrades st.
Proof. unfold handleAction. handler_cases. Qed.

Lemma purchaseUpgrade_gameStarted render upgrade st :
  (gameStarted render = true -> gameStarted st = true) ->
  gameStarted (purchaseUpgrade render upgrade st) = true.
Proof.
  intros H. unfold purchaseUpgrade.
  destruct (gameStarted render) eqn:E; simpl; handler_cases; now apply H.
Qed.

Lemma purchaseUpgrade_resources render upgrade st :
  resources (purchaseUpgrade render upgrade st) = resources st.
Proof. unfold purchaseUpgrade. handler_cases. Qed.

Lemma markPurchased_multiplier upgrade u :
  multiplier (markPurchased upgrade u) = multiplier u.
Proof. unfold markPurchased. now destruct (String.eqb _ _). Qed.

Lemma purchaseUpgrade_nonneg render upgrade st :
  nonnegMultipliers (upgrades st) ->
  nonnegMultipliers (upgrades (purchaseUpgrade render upgrade st)).
Proof.
  intros H. unfold purchaseUpgrade. handler_cases; try exact H.
  all: unfold nonnegMultipliers in *; apply List.Forall_forall;
    intros u Hu; apply in_map_iff in Hu as (u0 & <- & Hu0);
    rewrite markPurchased_multiplier;
    rewrite List.Forall_forall in H; now apply H.
Qed.

Lemma eventTick_fields render currentTime r1 r2 st :
  let st' := eventTick render currentTime r1 r2 st in
  gameStarted st' = gameStarted st /\ gameWon st' = gameWon st
  /\ gameLost st' = gameLost st /\ upgrades st' = upgrades st
  /\ eventsEnabled st' = eventsEnabled st /\ credits st' = credits st.
Proof.
  unfold eventTick. destruct (selectEvent _ _ _ _); simpl; tauto.
Qed.

Lemma countdownTick_fields st :
  let st' := countdownTick st in
  gameStarted st' = gameStarted st /\ resources st' = resources st
  /\ upgrades st' = upgrades st.
Proof. unfold countdownTick. destruct (_ <=? _)%Z; simpl; tauto. Qed.

Lemma closure_started a render :
  sessionInv a -> In render (renders a) ->
  gameStarted render = true -> gameStarted (current a) = true.
Proof.
  intros (_ & Hmono & _) Hin Hr.
  destruct (gameStarted (current a)) eqn:E; [reflexivity|].
  destruct Hin as [<-|Hin]; [congruence|].
  specialize (Hmono eq_refl). rewrite List.Forall_forall in Hmono.
  rewrite (Hmono _ Hin) in Hr. discriminate.
Qed.

Lemma good_closure a render :
  sessionInv a -> In render (renders a) -> good render.
Proof.
  intros (Hall & _) Hin. rewrite List.Forall_forall in Hall. now apply Hall.
Qed.

Lemma drainActive_started s : drainActive s = true -> gameStarted s = true.
Proof. unfold drainActive. now destruct (gameStarted s). Qed.

Lemma countdownActive_started s :
  countdownActive s = true -> gameStarted s = true.
Proof. unfold countdownActive. now destruct (gameStarted s). Qed.

Lemma eventRollActive_started s :
  eventRollActive s = true -> gameStarted s = true.
Proof. unfold eventRollActive. now destruct (gameStarted s). Qed.

Lemma fire_good a render cb :
  sessionInv a -> canRun a render cb ->
  good (fire render cb (current a))
  /\ (gameStarted (current a) = true ->
      gameStarted (fire render cb (current a)) = true).
Proof.
  intros Hinv Hrun.
  assert (Hcur : good (current a)) by (apply (good_closure a); [|left]; easy).
  destruct Hcur as (Hr & Hm & Hf).
  destruct cb as [type|upgrade| | | |currentTime r1 r2|]; simpl in *.
  - pose proof (good_closure _ _ Hinv Hrun) as (_ & Hmr & _).
    pose proof (handleAction_gameStarted render type (current a)
                  (closure_started _ _ Hinv Hrun)) as Hs.
    refine (conj (conj _ (conj _ _)) _).
    + now apply handleAction_inRange.
    + now rewrite handleAction_upgrades.
    + intros Hn. congruence.
    + intros _. exact Hs.
  - destruct Hrun as [Hrun _].
    pose proof (purchaseUpgrade_gameStarted render upgrade (current a)
                  (closure_started _ _ Hinv Hrun)) as Hs.
    refine (conj (conj _ (conj _ _)) _).
    + now rewrite purchaseUpgrade_resources.
    + now apply purchaseUpgrade_nonneg.
    + intros Hn. congruence.
    + intros _. exact Hs.
  - refine (conj (conj Hr (conj Hm Hf)) (fun H => H)).
  - destruct Hrun as [_ Hact]. apply drainActive_started in Hact.
    refine (conj (conj _ (conj Hm _)) (fun H => H)).
    + now apply drain_inRange.
    + intros Hn. simpl in Hn. congruence.
  - destruct Hrun as [_ Hact]. apply countdownActive_started in Hact.
    destruct (countdownTick_fields (current a)) as (Es & Er & Eu).
    refine (conj (conj _ (conj _ _)) _).
    + now rewrite Er.
    + now rewrite Eu.
    + intros Hn. congruence.
    + intros _. congruence.
  - destruct Hrun as [Hiv _].
    assert (Hact : gameStarted (current a) = true).
    { apply eventRollActive_started, Hinv. now rewrite Hiv. }
    destruct (eventTick_fields render currentTime r1 r2 (current a))
      as (Es & _ & _ & Eu & _).
    refine (conj (conj _ (conj _ _)) _).
    + now apply eventTick_inRange.
    + now rewrite Eu.
    + intros Hn. congruence.
    + intros _. congruence.
  - refine (conj (conj Hr (conj Hm Hf)) (fun H => H)).
Qed.

Lemma commit_good s : good s -> good (commit s).
Proof.
  intros (Hr & Hm & Hf). unfold good, fresh.
  rewrite commit_resources, commit_upgrades, commit_gameStarted,
    commit_gameLost, commit_gameWon.
  refine (conj Hr (conj Hm _)). intros Hs.
  destruct (Hf Hs) as (Er & Ew & El).
  rewrite Ew, El, Er. easy.
Qed.

Lemma eventRollActive_deps s s' :
  eventEffectDeps s = eventEffectDeps s' ->
  eventRollActive s = eventRollActive s'.
Proof.
  unfold eventEffectDeps, eventRollActive. intros [= -> -> -> ->]. reflexivity.
Qed.

Lemma eventEffect_active prevRender render interval :
  (is_Some interval <-> eventRollActive prevRender = true) ->
  (is_Some (eventEffect prevRender render interval)
   <-> eventRollActive render = true).
Proof.
  intros H. unfold eventEffect. case_bool_decide as Hd.
  - now rewrite <- (eventRollActive_deps _ _ Hd).
  - destruct (eventRollActive render); split; intros Hx; try easy.
    + now destruct Hx.
Qed.

Lemma deliver_inv a render cb :
  sessionInv a -> canRun a render cb -> sessionInv (deliver render cb a).
Proof.
  intros Hinv Hrun.
  destruct (fire_good a render cb Hinv Hrun) as [Hg1 Hmono1].
  pose proof (commit_good _ Hg1) as Hg2.
  destruct Hinv as (Hall & Hmono & Hiv).
  unfold sessionInv, deliver, renders in *; simpl.
  split; [|split].
  - repeat (constructor; [assumption|]). now inversion Hall.
  - rewrite commit_gameStarted. intros Hs.
    assert (Hs0 : gameStarted (current a) = false).
    { destruct (gameStarted (current a)); [|reflexivity].
      rewrite Hmono1 in Hs; easy. }
    repeat (constructor; [assumption|]). now apply Hmono.
  - now apply eventEffect_active, eventEffect_active.
Qed.

Lemma initial_inv : sessionInv initialSession.
Proof.
  unfold sessionInv, initialSession, renders; simpl. split; [|split].
  - constructor; [|constructor]. split; [|split].
    + apply initialResources_inRange.
    + apply initialUpgrades_nonneg.
    + intros _. easy.
  - intros _. constructor.
  - unfold eventRollActive; simpl. split; [intros [x Hx]|]; easy.
Qed.

Lemma reachable_inv a : reachable a -> sessionInv a.
Proof.
  induction 1 as [|a render cb _ IH Hrun]; [apply initial_inv|].
  now apply deliver_inv.
Qed.

(** C1.  In every reachable session the four resource fields are within
    their clamp ranges, and they still are after any callback that can run
    (generate, purchase, the drain tick, an event roll, the countdown), both
    right after the callback and after the effects of the render. *)
Theorem resources_stay_in_range (a : Session) :
  reachable a ->
  inRange (resources (current a))
  /\ forall render cb,
       canRun a render cb ->
       inRange (resources (fire render cb (current a)))
       /\ inRange (resources (current (deliver render cb a))).
Proof.
  intros Hreach. pose proof (reachable_inv a Hreach) as Hinv. split.
  - apply (good_closure a (current a) Hinv). now left.
  - intros render cb Hrun.
    destruct (fire_good a render cb Hinv Hrun) as [(Hr & _) _].
    split; [exact Hr|]. simpl. now rewrite commit_resources.
Qed.

Lemma resources_stay_in_range_witness :
  inRange (resources (current
    (deliver initialState (OnGenerate Oxygen) initialSession))).
Proof.
  apply (proj2 (resources_stay_in_range initialSession reach_init)
           initialState (OnGenerate Oxygen)).
  simpl. left. reflexivity.
Defined.

(** ** The critical check and the countdown *)

Lemma isCritical_spec r : isCritical r = true <-> monitoredLow r.
Proof.
  unfold isCritical, monitoredLow.
  rewrite !orb_true_iff, !Qleb_le. tauto.
Qed.

(** An episode that entered [Critical] from [s], with the countdown at [c]. *)
Lemma commit_enters_critical s :
  gameStarted s = true -> gameWon s = false -> gameLost s = false ->
  isCritical (resources s) = true -> winCondition (resources s) = false ->
  criticalTimer s = 0%Z ->
  commit s = setCountdownSeconds (fun _ => 30%Z) (setCriticalTimer 1 s).
Proof.
  intros Hs Hw Hl Hc Hn Ht.
  unfold commit, cleanupEffect, winEffect, criticalEffect.
  rewrite Hs, Hw, Hl, Hc, Hn, Ht. reflexivity.
Qed.

Lemma step_in_episode s c :
  gameStarted s = true -> gameWon s = false -> gameLost s = false ->
  isCritical (resources s) = true -> winCondition (resources s) = false ->
  (1 < c)%Z ->
  countdownStep (setCountdownSeconds (fun _ => c) (setCriticalTimer 1 s))
  = setCountdownSeconds (fun _ => c - 1)%Z (setCriticalTimer 1 s).
Proof.
  intros Hs Hw Hl Hc Hn Hlt.
  unfold countdownStep, countdownTick. simpl.
  destruct (c <=? 1)%Z eqn:E; [apply Z.leb_le in E; lia|].
  unfold commit, cleanupEffect, winEffect, criticalEffect. simpl.
  rewrite Hs, Hw, Hl, Hc, Hn. reflexivity.
Qed.

Lemma last_step s c :
  (c <= 1)%Z ->
  phase (countdownStep
           (setCountdownSeconds (fun _ => c) (setCriticalTimer 1 s)))
  = Lost.
Proof.
  intros Hle. unfold countdownStep, countdownTick. simpl.
  destruct (c <=? 1)%Z eqn:E; [|apply Z.leb_gt in E; lia].
  unfold phase. now rewrite commit_gameLost.
Qed.

Lemma steps_in_episode s n :
  gameStarted s = true -> gameWon s = false -> gameLost s = false ->
  isCritical (resources s) = true -> winCondition (resources s) = false ->
  criticalTimer s = 0%Z ->
  (n < 30)%nat ->
  Nat.iter n countdownStep (commit s)
  = setCountdownSeconds (fun _ => 30 - Z.of_nat n)%Z (setCriticalTimer 1 s).
Proof.
  intros Hs Hw Hl Hc Hn Ht. induction n as [|n IH]; intros Hlt.
  - simpl. now apply commit_enters_critical.
  - simpl. rewrite IH by lia. rewrite step_in_episode by (easy || lia).
    unfold setCountdownSeconds. simpl. f_equal. lia.
Qed.

(** The critical check and the countdown callback, tick by tick and without
    the clock.  In a started session that is neither won nor lost: when
    oxygen, water or energy is at or below 5 the check enters [Critical]
    with the countdown at 30 and its guard for the countdown interval
    passes; each run of the interval's callback takes one off the countdown
    and the run that would reach 0 sets [Lost], so an episode is lost at the
    30th run and not before; when the three are all above 5 the check
    returns to [Safe] with the countdown back at 30; the temperature plays
    no part; and the render after each callback has had the check applied
    to the resources that callback left behind.  When those runs come is
    another matter: see [runAt]. *)
Theorem critical_countdown_machine (s : State) :
  gameStarted s = true -> gameWon s = false -> gameLost s = false ->
  (monitoredLow (resources s) ->
     countdownActive s = true
     /\ (criticalTimer s = 0%Z -> phase (criticalEffect s s) = Critical 30)
     /\ (criticalTimer s <> 0%Z ->
         criticalEffect s s = s
         /\ ((1 < countdownSeconds s)%Z ->
             phase (countdownTick s) = Critical (countdownSeconds s - 1))
         /\ ((countdownSeconds s <= 1)%Z ->
             phase (countdownTick s) = Lost
             /\ countdownSeconds (countdownTick s) = 0%Z))
     /\ (criticalTimer s = 0%Z -> winCondition (resources s) = false ->
         (forall n, (n < 30)%nat ->
            phase (Nat.iter n countdownStep (commit s))
            = Critical (30 - Z.of_nat n))
         /\ phase (Nat.iter 30 countdownStep (commit s)) = Lost))
  /\ (~ monitoredLow (resources s) ->
      countdownActive s = false
      /\ phase (criticalEffect s s) = Safe
      /\ countdownSeconds (criticalEffect s s) = 30%Z)
  /\ (forall t st,
        criticalEffect (setResources (setField Temperature t) s) st
        = criticalEffect s st)
  /\ (forall a render cb,
        let s1 := fire render cb (current a) in
        let s2 := current (deliver render cb a) in
        criticalTimer s2 = criticalTimer (criticalEffect s1 s1)
        /\ countdownSeconds s2 = countdownSeconds (criticalEffect s1 s1)).
Proof.
  intros Hs Hw Hl. split; [|split; [|split; [|intros; apply commit_critical]]].
  - intros Hlow. apply isCritical_spec in Hlow.
    split; [|split; [|split]].
    + unfold countdownActive. now rewrite Hs, Hw, Hl, Hlow.
    + intros Ht. unfold criticalEffect, phase.
      rewrite Hs, Hw, Hl, Hlow, Ht. simpl. now rewrite Hl.
    + intros Ht. apply Z.eqb_neq in Ht. split; [|split].
      * unfold criticalEffect. now rewrite Hs, Hw, Hl, Hlow, Ht.
      * intros Hc. unfold countdownTick, phase.
        destruct (countdownSeconds s <=? 1)%Z eqn:E;
          [apply Z.leb_le in E; lia|].
        simpl. now rewrite Hl, Ht.
      * intros Hc. unfold countdownTick, phase.
        destruct (countdownSeconds s <=? 1)%Z eqn:E;
          [|apply Z.leb_gt in E; lia].
        now simpl.
    + intros Ht Hn. split.
      * intros n Hlt. rewrite steps_in_episode by easy.
        unfold phase. simpl. now rewrite Hl.
      * rewrite (Nat.iter_succ 29 countdownStep).
        rewrite steps_in_episode by (easy || lia).
        apply last_step. lia.
  - intros Hhigh.
    assert (Hc : isCritical (resources s) = false).
    { destruct (isCritical (resources s)) eqn:E; [|reflexivity].
      now apply isCritical_spec in E. }
    split; [|split].
    + unfold countdownActive. rewrite Hc. apply andb_false_r.
    + unfold criticalEffect, phase. rewrite Hs, Hw, Hl, Hc. simpl.
      now rewrite Hl.
    + unfold criticalEffect. now rewrite Hs, Hw, Hl, Hc.
  - reflexivity.
Qed.

Lemma critical_countdown_machine_witness :
  phase (Nat.iter 30 countdownStep
           (commit (setGameStarted true initialState)))
  = Lost.
Proof.
  apply (critical_countdown_machine (setGameStarted true initialState)
           eq_refl eq_refl eq_refl).
  - left. vm_compute. discriminate.
  - reflexivity.
  - reflexivity.
Defined.

(** ** The win check *)

Lemma winCondition_spec r :
  winCondition r = true
  <-> 100 <= oxygen r /\ 100 <= water r /\ 15 <= temperature r.
Proof.
  unfold winCondition. rewrite !andb_true_iff, !Qleb_le. tauto.
Qed.

(** C3.  The win check does nothing once [gameLost] is set; otherwise it
    sets [gameWon] exactly when oxygen >= 100, water >= 100 and
    temperature >= 15, so at (100, 100, 15) it does and at (100, 99.9, 15)
    it does not; and the render after each callback has had the check
    applied to the resources that callback left behind. *)
Theorem win_check (s : State) :
  (gameLost s = true -> winEffect s s = s)
  /\ (gameLost s = false -> gameWon s = false ->
      (gameWon (winEffect s s) = true
       <-> 100 <= oxygen (resources s) /\ 100 <= water (resources s)
           /\ 15 <= temperature (resources s)))
  /\ (forall e,
        let at_threshold := setResources (fun _ => mkResource 100 100 15 e) s in
        let below := setResources (fun _ => mkResource 100 99.9 15 e) s in
        gameLost s = false ->
        gameWon (winEffect at_threshold at_threshold) = true
        /\ (gameWon s = false -> gameWon (winEffect below below) = false))
  /\ (forall a render cb,
        let s1 := fire render cb (current a) in
        let s2 := current (deliver render cb a) in
        resources s2 = resources s1
        /\ gameWon s2
           = gameWon s1 || (negb (gameLost s1) && winCondition (resources s1))).
Proof.
  split; [|split; [|split]].
  - intros Hl. unfold winEffect. now rewrite Hl.
  - intros Hl Hw. rewrite <- winCondition_spec. unfold winEffect. rewrite Hl.
    destruct (winCondition (resources s)); simpl; rewrite ?Hw; easy.
  - intros e at_threshold below Hl. split.
    + unfold winEffect, at_threshold. simpl. now rewrite Hl.
    + intros Hw. unfold winEffect, below. simpl. now rewrite Hl.
  - intros a render cb. simpl. split.
    + apply commit_resources.
    + apply commit_gameWon.
Qed.

Lemma win_check_witness :
  let s := setResources (fun _ => mkResource 100 100 15 40) initialState in
  gameWon (winEffect s s) = true.
Proof.
  intros s.
  apply (proj1 (proj2 (win_check s)) eq_refl eq_refl).
  vm_compute. repeat split; discriminate.
Defined.

(** ** Generation *)

Lemma reachable_low_energy_started a :
  reachable a -> energy (resources (current a)) < 10 ->
  gameStarted (current a) = true.
Proof.
  intros Hreach He. apply reachable_inv in Hreach.
  destruct (good_closure a (current a) Hreach) as (_ & _ & Hf); [now left|].
  destruct (gameStarted (current a)) eqn:E; [reflexivity|].
  destruct (Hf E) as (Er & _). rewrite Er in He.
  vm_compute in He. discriminate.
Qed.

Lemma handleAction_generated s type :
  gameWon s = false -> gameLost s = false ->
  (type = Energy \/ 10 <= energy (resources s)) ->
  handleAction s type s = generated type s.
Proof.
  intros Hw Hl He. unfold handleAction, generated.
  rewrite Hw, Hl, <- !getMultiplier_stackProduct. simpl.
  assert (Hq : type <> Energy -> Qltb (energy (resources s)) 10 = false).
  { intros Hne. apply Qltb_ge. now destruct He. }
  destruct s as [r c ev w l ct cs us [|] en cd]; simpl in *; subst;
    destruct type; try rewrite Hq by discriminate; reflexivity.
Qed.

(** Generation by the handler of the current render, as a click runs it.
    In a reachable session that is neither won nor lost, for a resource
    type other than energy: it changes nothing when energy is below 10, and
    otherwise it is the generation of the specification: the gain
    [baseGain * multiplier * energy/100] computed from the energy before the
    call, the cap at 100 (50 for temperature), 10 off the energy floored at
    0 and 2 more credits. *)
Theorem generate_resource (a : Session) (type : ResourceKey) :
  reachable a ->
  gameWon (current a) = false -> gameLost (current a) = false ->
  type <> Energy ->
  (energy (resources (current a)) < 10 ->
   handleAction (current a) type (current a) = current a)
  /\ (10 <= energy (resources (current a)) ->
      handleAction (current a) type (current a) = generated type (current a)).
Proof.
  intros Hreach Hw Hl Hne. split.
  - intros He.
    pose proof (reachable_low_energy_started a Hreach He) as Hs.
    apply Qltb_lt in He. unfold handleAction.
    rewrite Hs, Hw, Hl, He. simpl. now destruct type.
  - intros He. apply handleAction_generated; auto.
Qed.

Lemma generate_resource_witness :
  handleAction initialState Oxygen initialState = generated Oxygen initialState.
Proof.
  apply (generate_resource initialSession Oxygen reach_init eq_refl eq_refl).
  - discriminate.
  - vm_compute. discriminate.
Defined.

(** Generation of energy by the handler of the current render.  In a state
    that is neither won nor lost it is the generation of the specification
    whatever the energy level: energy gains [8 * multiplier(energy)] capped
    at 100, nothing is taken from any resource, and 2 credits are
    awarded. *)
Theorem generate_energy (s : State) :
  gameWon s = false -> gameLost s = false ->
  handleAction s Energy s = generated Energy s
  /\ energy (resources (handleAction s Energy s))
     = Qmin 100 (energy (resources s) + 8 * stackProduct (upgrades s) Energy)
  /\ oxygen (resources (handleAction s Energy s)) = oxygen (resources s)
  /\ water (resources (handleAction s Energy s)) = water (resources s)
  /\ temperature (resources (handleAction s Energy s))
     = temperature (resources s)
  /\ credits (handleAction s Energy s) = (credits s + 2)%Z.
Proof.
  intros Hw Hl.
  rewrite (handleAction_generated s Energy Hw Hl) by now left.
  repeat split.
Qed.

Lemma generate_energy_witness :
  credits (handleAction (setResources (setField Energy 0) initialState) Energy
             (setResources (setField Energy 0) initialState)) = 32%Z.
Proof.
  apply (generate_energy (setResources (setField Energy 0) initialState)
           eq_refl eq_refl).
Defined.

(** ** Purchases *)

Lemma markPurchased_bought upgrade ups :
  bought upgrade ups (map (markPurchased upgrade) ups).
Proof.
  unfold bought. induction ups as [|x ups IH]; simpl; constructor; [|exact IH].
  unfold markPurchased. destruct (String.eqb (id x) (id upgrade)); simpl; tauto.
Qed.

Lemma markPurchased_fixes upgrade u :
  purchased u = true -> markPurchased upgrade u = u.
Proof.
  intros Hp. unfold markPurchased. destruct (String.eqb _ _); [|reflexivity].
  destruct u; simpl in *. now subst.
Qed.

Lemma purchaseUpgrade_rejected s u :
  gameWon s = true \/ gameLost s = true \/ purchased u = true
  \/ (credits s < cost u)%Z ->
  purchaseUpgrade s u s = started s.
Proof.
  intros H. unfold purchaseUpgrade, started.
  destruct (gameStarted s); simpl;
    destruct (gameWon s); simpl; try reflexivity;
    destruct (gameLost s); simpl; try reflexivity;
    destruct (purchased u); simpl; rewrite ?andb_false_r; try reflexivity;
    destruct (cost u <=? credits s)%Z eqn:E; try reflexivity;
    apply Z.leb_le in E; decompose [or] H; try discriminate; lia.
Qed.

Lemma purchaseUpgrade_accepted s u :
  gameWon s = false -> gameLost s = false -> purchased u = false ->
  (cost u <= credits s)%Z ->
  purchaseUpgrade s u s
  = setUpgrades (map (markPurchased u))
      (setCredits (fun prev => prev - cost u)%Z (started s)).
Proof.
  intros Hw Hl Hp Hc. apply Z.leb_le in Hc.
  unfold purchaseUpgrade, started. rewrite Hw, Hl, Hp, Hc.
  now destruct (gameStarted s).
Qed.

Lemma fire_keeps_purchased render cb st u :
  In u (upgrades st) -> purchased u = true ->
  In u (upgrades (fire render cb st)).
Proof.
  intros Hin Hp.
  destruct cb as [type|upgrade| | | |currentTime r1 r2|]; simpl; try exact Hin.
  - now rewrite handleAction_upgrades.
  - unfold purchaseUpgrade. handler_cases; try exact Hin.
    all: apply in_map_iff; exists u; split;
      [now apply markPurchased_fixes | exact Hin].
  - now destruct (countdownTick_fields st) as (_ & _ & ->).
  - now destruct (eventTick_fields render currentTime r1 r2 st)
      as (_ & _ & _ & -> & _).
Qed.

(** Purchase by the handler of the current render, with an upgrade object
    of that render.  It only marks the session started when the game is won
    or lost, when the upgrade is already purchased or when the credits are
    short of the cost.  Otherwise it takes the cost off the credits and
    marks the entries with that id purchased, leaving the rest of the list
    and the resources as they were; a second attempt on that id by the
    handler of the render that follows then changes nothing; and no
    callback ever takes a purchased upgrade back. *)
Theorem purchase_upgrade (s : State) (u : Upgrade) :
  (gameStarted s = true -> started s = s)
  /\ (gameWon s = true \/ gameLost s = true \/ purchased u = true
      \/ (credits s < cost u)%Z ->
      purchaseUpgrade s u s = started s)
  /\ (gameWon s = false -> gameLost s = false -> purchased u = false ->
      (cost u <= credits s)%Z ->
      let s' := purchaseUpgrade s u s in
      credits s' = (credits s - cost u)%Z
      /\ bought u (upgrades s) (upgrades s')
      /\ resources s' = resources s
      /\ gameStarted s' = true
      /\ (forall u', In u' (upgrades s') -> id u' = id u ->
            purchased u' = true /\ purchaseUpgrade s' u' s' = s'))
  /\ (forall render cb st,
        In u (upgrades st) -> purchased u = true ->
        In u (upgrades (commit (fire render cb st)))).
Proof.
  split; [|split; [|split]].
  - intros Hs. unfold started. now rewrite Hs.
  - apply purchaseUpgrade_rejected.
  - intros Hw Hl Hp Hc s'. subst s'.
    rewrite (purchaseUpgrade_accepted s u Hw Hl Hp Hc).
    assert (Hst : gameStarted (started s) = true)
      by (unfold started; now destruct (gameStarted s) eqn:E).
    assert (Hcr : credits (started s) = credits s)
      by (unfold started; now destruct (gameStarted s)).
    assert (Hup : upgrades (started s) = upgrades s)
      by (unfold started; now destruct (gameStarted s)).
    assert (Hre : resources (started s) = resources s)
      by (unfold started; now destruct (gameStarted s)).
    simpl. rewrite Hcr, Hup, Hre.
    split; [reflexivity|]. split; [apply markPurchased_bought|].
    split; [reflexivity|]. split; [exact Hst|].
    intros u' Hin Hid.
    assert (Hp' : purchased u' = true).
    { apply in_map_iff in Hin as (x & <- & _).
      unfold markPurchased in *.
      destruct (String.eqb (id x) (id u)) eqn:E; [reflexivity|].
      apply String.eqb_neq in E. now rewrite Hid in E. }
    split; [exact Hp'|].
    rewrite purchaseUpgrade_rejected by tauto.
    unfold started at 1. simpl. now rewrite Hst.
  - intros render cb st Hin Hp. rewrite commit_upgrades.
    now apply fire_keeps_purchased.
Qed.

Lemma purchase_upgrade_witness :
  let s := setCredits (fun _ => 100%Z) initialState in
  let u := mkUpgrade "oxygen1" "Basic Oxygen Generator" 80 Oxygen 1.2 false in
  credits (purchaseUpgrade s u s) = 20%Z.
Proof.
  intros s u.
  apply (proj1 (proj1 (proj2 (proj2 (purchase_upgrade s u)))
                  eq_refl eq_refl eq_refl ltac:(vm_compute; discriminate))).
Defined.

(** ** Starting the session *)

Lemma handleAction_flags render type st :
  gameWon (handleAction render type st) = gameWon st
  /\ gameLost (handleAction render type st) = gameLost st
  /\ eventsEnabled (handleAction render type st) = eventsEnabled st.
Proof. unfold handleAction. repeat split; handler_cases. Qed.

Lemma purchaseUpgrade_flags render upgrade st :
  gameWon (purchaseUpgrade render upgrade st) = gameWon st
  /\ gameLost (purchaseUpgrade render upgrade st) = gameLost st
  /\ eventsEnabled (purchaseUpgrade render upgrade st) = eventsEnabled st.
Proof. unfold purchaseUpgrade. repeat split; handler_cases. Qed.

Lemma handleAction_keeps_zero render type st :
  oxygen (resources st) = 0 -> water (resources st) = 0 ->
  oxygen (resources (handleAction render type st)) = 0
  \/ water (resources (handleAction render type st)) = 0.
Proof.
  intros Ho Hw. unfold handleAction.
  destruct (negb (gameStarted render)), (gameWon render || gameLost render);
    simpl; auto;
    destruct type; simpl; auto;
    destruct (Qltb (energy (resources render)) 10); simpl; auto.
Qed.

Lemma zero_is_critical r :
  oxygen r = 0 \/ water r = 0 ->
  isCritical r = true /\ winCondition r = false.
Proof.
  intros H. unfold isCritical, winCondition.
  destruct H as [-> | ->].
  - split; reflexivity.
  - split.
    + apply orb_true_iff. left. apply orb_true_iff. now right.
    + apply andb_false_iff. left. apply andb_false_iff. now right.
Qed.

Lemma first_action_fire a render cb :
  sessionInv a -> gameStarted (current a) = false ->
  canRun a render cb -> isAction cb = true ->
  let s1 := fire render cb (current a) in
  gameStarted s1 = true /\ gameWon s1 = false /\ gameLost s1 = false
  /\ eventsEnabled s1 = eventsEnabled (current a)
  /\ isCritical (resources s1) = true /\ winCondition (resources s1) = false.
Proof.
  intros Hinv Hns Hrun Hact.
  destruct (good_closure a (current a) Hinv) as (_ & _ & Hf); [now left|].
  destruct (Hf Hns) as (Er & Ew & El).
  destruct cb as [type|upgrade| | | | |]; try discriminate; simpl in *.
  - destruct (handleAction_flags render type (current a)) as (-> & -> & ->).
    rewrite handleAction_gameStarted
      by apply (closure_started _ _ Hinv Hrun).
    repeat (split; [easy|]).
    apply zero_is_critical, handleAction_keeps_zero; now rewrite Er.
  - destruct Hrun as [Hrun _].
    destruct (purchaseUpgrade_flags render upgrade (current a))
      as (-> & -> & ->).
    rewrite purchaseUpgrade_gameStarted
      by apply (closure_started _ _ Hinv Hrun).
    repeat (split; [easy|]).
    apply zero_is_critical. rewrite purchaseUpgrade_resources, Er. now left.
Qed.

(** C10, as stated, fails: a rejected purchase in the initial session starts
    the session and the drain, but the event roll stays off. *)
Lemma rejected_purchase_leaves_events_off :
  let a := deliver initialState (OnPurchase oxygen1) initialSession in
  canRun initialSession initialState (OnPurchase oxygen1)
  /\ credits (current a) = credits initialState
  /\ gameStarted (current a) = true
  /\ drainActive (current a) = true
  /\ eventRollActive (current a) = false
  /\ eventInterval a = None.
Proof.
  simpl. split; [|now vm_compute].
  split; [now left|]. now left.
Qed.

(** C10, amended.  A handler created before the session started sets
    [gameStarted] whatever else it then checks, so a call that is rejected
    only marks the session started.  In a reachable session not yet
    started, any [generate] or [purchase] therefore starts it, which turns
    on the drain interval and the critical countdown, and turns on the event
    roll exactly when events are enabled. *)
Theorem first_action_starts_session (a : Session) (render : State)
  (cb : Callback) :
  (forall type upgrade st,
     gameStarted render = false ->
     gameStarted (handleAction render type st) = true
     /\ gameStarted (purchaseUpgrade render upgrade st) = true
     /\ (type <> Energy -> energy (resources render) < 10 ->
         handleAction render type st = setGameStarted true st)
     /\ ((credits render < cost upgrade)%Z ->
         purchaseUpgrade render upgrade st = setGameStarted true st))
  /\ (reachable a -> gameStarted (current a) = false ->
      canRun a render cb -> isAction cb = true ->
      let a' := deliver render cb a in
      gameStarted (current a') = true
      /\ drainActive (current a') = true
      /\ countdownActive (current a') = true
      /\ eventRollActive (current a') = eventsEnabled (current a)
      /\ (is_Some (eventInterval a') <-> eventsEnabled (current a) = true)).
Proof.
  split.
  - intros type upgrade st Hns. split; [|split; [|split]].
    + apply handleAction_gameStarted. congruence.
    + apply purchaseUpgrade_gameStarted. congruence.
    + intros Hne He. apply Qltb_lt in He. unfold handleAction.
      rewrite Hns, He. simpl.
      destruct (gameWon render || gameLost render); [reflexivity|].
      now destruct type.
    + intros Hc. apply Z.leb_gt in Hc. unfold purchaseUpgrade.
      rewrite Hns, Hc. simpl.
      now destruct (gameWon render || gameLost render).
  - intros Hreach Hns Hrun Hact a'.
    pose proof (reachable_inv a Hreach) as Hinv.
    destruct (first_action_fire a render cb Hinv Hns Hrun Hact)
      as (Hs & Hw & Hl & He & Hc & Hn).
    assert (Hinv' : sessionInv a')
      by (apply reachable_inv; now constructor).
    destruct Hinv' as (_ & _ & Hiv).
    assert (Hroll : eventRollActive (current a') = eventsEnabled (current a)).
    { unfold a', eventRollActive. simpl.
      rewrite commit_gameStarted, commit_gameWon, commit_gameLost,
        commit_eventsEnabled, Hs, Hw, Hl, Hn, He. reflexivity. }
    split; [|split; [|split; [|split]]].
    + unfold a'. simpl. now rewrite commit_gameStarted.
    + unfold a', drainActive. simpl.
      now rewrite commit_gameStarted, commit_gameWon, commit_gameLost,
        Hs, Hw, Hl, Hn.
    + unfold a', countdownActive. simpl.
      now rewrite commit_gameStarted, commit_gameWon, commit_gameLost,
        commit_resources, Hs, Hw, Hl, Hn, Hc.
    + exact Hroll.
    + now rewrite Hiv, Hroll.
Qed.

Lemma first_action_starts_session_witness :
  countdownActive
    (current (deliver initialState (OnPurchase oxygen1) initialSession))
  = true.
Proof.
  apply (proj2 (first_action_starts_session initialSession initialState
                  (OnPurchase oxygen1)) reach_init eq_refl).
  - simpl. split; now left.
  - reflexivity.
Defined.

(** ** Event cooldowns *)

Lemma roll_reachable currentTime r1 r2 a :
  reachable a -> isRandom r1 -> isRandom r2 ->
  reachable (roll currentTime r1 r2 a).
Proof.
  intros Hreach H1 H2. unfold roll.
  destruct (eventInterval a) as [render|] eqn:E; [|exact Hreach].
  apply reach_step; [exact Hreach|]. simpl. tauto.
Qed.

Lemma playing_reachable : reachable playing.
Proof.
  unfold playing. apply reach_step; [apply reach_step|].
  - apply reach_init.
  - reflexivity.
  - simpl. now left.
Qed.

(** The filter does keep out what is young in the map it is handed. *)
Lemma selectEvent_respects_cooldowns cooldowns currentTime r1 r2 e timestamp :
  selectEvent cooldowns currentTime r1 r2 = Some e ->
  cooldowns !! eid e = Some timestamp ->
  timestamp = 0%Z \/ (15000 < currentTime - timestamp)%Z.
Proof.
  intros Hsel Hcd. apply selectEvent_In in Hsel as [_ Hav].
  unfold isAvailable in Hav. rewrite Hcd in Hav.
  apply orb_true_iff in Hav as [H|H]; [left; lia | right; lia].
Qed.

(** C6 does not hold of the code: the interval filters with the cooldowns of
    the render it was created in, not with the current ones.  In a session
    whose event interval has just been created, a roll at time [t] that
    picks the dust storm records [t] as its cooldown, and the next roll of
    the same interval, 6 s later, picks the dust storm again and applies it
    again. *)
Theorem event_reselected_within_cooldown :
  let t := 1700000006000%Z in
  let a1 := roll t 0.25 0 playing in
  let a2 := roll (t + 6000) 0.25 0 a1 in
  reachable a2
  /\ eventInterval a1 = eventInterval playing
  /\ showing (current a1) = Some "dust_storm"
  /\ eventCooldowns (current a1) !! "dust_storm" = Some t
  /\ showing (current a2) = Some "dust_storm"
  /\ energy (resources (current playing)) == 100
  /\ energy (resources (current a1)) == 85
  /\ energy (resources (current a2)) == 70
  /\ showing
       (eventTick (current a1) (t + 6000) 0.25 0 (current a1))
     = Some "ice_discovery".
Proof.
  intros t a1 a2. split.
  - unfold a2, a1. repeat apply roll_reachable; try (split; lra).
    apply playing_reachable.
  - vm_compute. repeat split; reflexivity.
Qed.

(** ** The agent's fallbacks *)

Lemma split_pieces s :
  Agent.split ":" s !! 0%nat = Some (beforeColon s)
  /\ Agent.split ":" s !! 1%nat = afterColon s.
Proof.
  induction s as [|c rest [IH0 IH1]]; simpl; [easy|].
  destruct (Ascii.eqb c ":"); simpl; [easy|].
  destruct (Agent.split ":" rest) as [|piece pieces]; simpl in *; [easy|].
  split; [congruence | exact IH1].
Qed.

Lemma parseAction_cases s :
  Agent.parseAction s
  = if String.eqb (beforeColon s) "generate"
    then Agent.mkAction Agent.generate (afterColon s)
    else if String.eqb (beforeColon s) "purchase"
         then Agent.mkAction Agent.purchase (afterColon s)
         else Agent.defaultAction.
Proof.
  unfold Agent.parseAction. destruct (split_pieces s) as [-> ->]. reflexivity.
Qed.

Lemma mapParseAction_strings strs :
  Agent.mapParseAction (map Agent.JString strs)
  = Some (map Agent.parseAction strs).
Proof.
  induction strs as [|s strs IH]; simpl; [reflexivity|]. now rewrite IH.
Qed.

(** C8, as stated, fails: a reply of ten strings [generate], which lack the
    colon and the target, is returned as ten [generate] actions without a
    target, not as [generate:energy]. *)
Lemma bare_kind_is_not_replaced :
  ~ hasForm "generate"
  /\ Agent.getNextActions (fun _ => Some bareReply) (Agent.Reply (Some "reply"))
     = repeat (Agent.mkAction Agent.generate None) 10
  /\ Agent.mkAction Agent.generate None <> Agent.defaultAction.
Proof.
  split; [|split].
  - intros (kind & target & H & [-> | ->]); simpl in H; discriminate.
  - reflexivity.
  - discriminate.
Qed.

Lemma getDefaultActions_cycle i :
  (i < 10)%nat ->
  Agent.getDefaultActions !! i
  = Some (Agent.mkAction Agent.generate (Some (cyclicTarget i))).
Proof.
  intros Hi.
  do 10 (destruct i as [|i]; [reflexivity|]). lia.
Qed.

(** C8, amended.  [getNextActions] returns the default list, ten actions
    cycling through [generate:energy], [generate:oxygen], [generate:water],
    whenever the call throws, the content is empty, the content is not
    JSON, or the parsed value does not carry under [actions] an array of
    exactly ten strings.  On a reply that does, it returns the ten strings
    parsed one by one: a string whose text before the first colon is neither
    [generate] nor [purchase] becomes [generate:energy]; any other string
    becomes an action of that kind, and [generate:X] or [purchase:X] has
    target [X] up to its next colon. *)
Theorem getNextActions_fallbacks (JSON_parse : string -> option Agent.JSON) :
  (length Agent.getDefaultActions = 10%nat
   /\ forall i, (i < 10)%nat ->
        Agent.getDefaultActions !! i
        = Some (Agent.mkAction Agent.generate (Some (cyclicTarget i))))
  /\ Agent.getNextActions JSON_parse Agent.ApiError = Agent.getDefaultActions
  /\ Agent.getNextActions JSON_parse (Agent.Reply None)
     = Agent.getDefaultActions
  /\ Agent.getNextActions JSON_parse (Agent.Reply (Some EmptyString))
     = Agent.getDefaultActions
  /\ (forall text,
        JSON_parse text = None ->
        Agent.getNextActions JSON_parse (Agent.Reply (Some text))
        = Agent.getDefaultActions)
  /\ (forall text v,
        JSON_parse text = Some v ->
        ~ (exists items,
             Agent.getActionsField v = Some (Some (Agent.JArray items))
             /\ length items = 10%nat
             /\ is_Some (Agent.mapParseAction items)) ->
        Agent.getNextActions JSON_parse (Agent.Reply (Some text))
        = Agent.getDefaultActions)
  /\ (forall text fields strs,
        text <> EmptyString ->
        JSON_parse text = Some (Agent.JObject fields) ->
        Agent.lookupField "actions" fields
        = Some (Agent.JArray (map Agent.JString strs)) ->
        length strs = 10%nat ->
        Agent.getNextActions JSON_parse (Agent.Reply (Some text))
        = map Agent.parseAction strs)
  /\ (forall s,
        (beforeColon s = "generate" ->
         Agent.parseAction s = Agent.mkAction Agent.generate (afterColon s))
        /\ (beforeColon s = "purchase" ->
            Agent.parseAction s = Agent.mkAction Agent.purchase (afterColon s))
        /\ (beforeColon s <> "generate" -> beforeColon s <> "purchase" ->
            Agent.parseAction s = Agent.defaultAction)
        /\ Agent.parseAction ("generate:" ++ s)
           = Agent.mkAction Agent.generate (Some (beforeColon s))
        /\ Agent.parseAction ("purchase:" ++ s)
           = Agent.mkAction Agent.purchase (Some (beforeColon s))).
Proof.
  split; [split; [reflexivity | apply getDefaultActions_cycle]|].
  do 3 (split; [reflexivity|]).
  split; [|split; [|split]].
  - intros text Hp. destruct text; [reflexivity|].
    unfold Agent.getNextActions, Agent.tryParse. now rewrite Hp.
  - intros text v Hp Hbad. destruct text; [reflexivity|].
    unfold Agent.getNextActions, Agent.tryParse. rewrite Hp.
    destruct (Agent.getActionsField v) as [[x|]|] eqn:E; try reflexivity.
    destruct x as [| | | |items|]; try reflexivity.
    destruct (length items =? 10)%nat eqn:El; [|reflexivity].
    destruct (Agent.mapParseAction items) as [acts|] eqn:Em; [|reflexivity].
    exfalso. apply Hbad. exists items. apply Nat.eqb_eq in El.
    rewrite Em. eauto.
  - intros text fields strs Hne Hp Hf Hl. destruct text; [congruence|].
    unfold Agent.getNextActions, Agent.tryParse. rewrite Hp. simpl.
    rewrite Hf, length_map, Hl, mapParseAction_strings. reflexivity.
  - intros s. rewrite !parseAction_cases. split; [|split; [|split]].
    + intros ->. reflexivity.
    + intros ->. reflexivity.
    + intros Hg Hp. apply String.eqb_neq in Hg, Hp. now rewrite Hg, Hp.
    + split; reflexivity.
Qed.

Lemma getNextActions_fallbacks_witness :
  Agent.getNextActions (fun _ => None) (Agent.Reply (Some "not json"))
  = Agent.getDefaultActions.
Proof.
  apply (proj1 (proj2 (proj2 (proj2 (proj2
           (getNextActions_fallbacks (fun _ => None))))))).
  reflexivity.
Defined.

(** * Further properties *)

(** ** The agent's replies and history *)

Lemma mapParseAction_length items acts :
  Agent.mapParseAction items = Some acts -> length acts = length items.
Proof.
  revert acts. induction items as [|x items IH]; intros acts; simpl.
  - intros [= <-]. reflexivity.
  - destruct x; try discriminate.
    destruct (Agent.mapParseAction items) as [rest|]; [|discriminate].
    intros [= <-]. simpl. f_equal. now apply IH.
Qed.

Lemma tryParse_length JSON_parse text acts :
  Agent.tryParse JSON_parse text = Some (Some acts) -> length acts = 10%nat.
Proof.
  unfold Agent.tryParse.
  destruct (JSON_parse text) as [v|]; [|discriminate].
  destruct (Agent.getActionsField v) as [[x|]|]; try discriminate.
  destruct x as [| | | |items|]; try discriminate.
  destruct (length items =? 10)%nat eqn:El; [|discriminate].
  destruct (Agent.mapParseAction items) as [acts'|] eqn:Em; [|discriminate].
  intros [= <-]. apply Nat.eqb_eq in El.
  now rewrite (mapParseAction_length _ _ Em).
Qed.

(** X1.  Whatever the completion call does and whatever the reply parses
    to, [getNextActions] returns exactly ten actions. *)
Theorem getNextActions_ten (JSON_parse : string -> option Agent.JSON)
  (c : Agent.Completion) :
  length (Agent.getNextActions JSON_parse c) = 10%nat.
Proof.
  destruct c as [|[text|]]; try reflexivity.
  destruct text as [|ch text]; [reflexivity|].
  unfold Agent.getNextActions.
  destruct (Agent.tryParse JSON_parse (String ch text)) as [[acts|]|] eqn:E;
    try reflexivity.
  now apply tryParse_length in E.
Qed.

Lemma lastN_length {A : Type} (n : nat) (h : list A) :
  length (AgentLog.lastN n h) = Nat.min n (length h).
Proof. unfold AgentLog.lastN. rewrite length_drop. lia. Qed.

Lemma capHistory_length h :
  length (AgentLog.capHistory h) = Nat.min (length h) 100.
Proof.
  unfold AgentLog.capHistory.
  destruct (100 <? length h)%nat eqn:E.
  - apply Nat.ltb_lt in E. destruct h as [|first h]; [simpl in E; lia|].
    cbn [length]. rewrite lastN_length. cbn [length] in *. lia.
  - apply Nat.ltb_ge in E. lia.
Qed.

Lemma capHistory_head h : head (AgentLog.capHistory h) = head h.
Proof.
  unfold AgentLog.capHistory.
  destruct (100 <? length h)%nat; [|reflexivity]. now destruct h.
Qed.

Lemma capHistory_lastN h :
  AgentLog.lastN 99 (AgentLog.capHistory h) = AgentLog.lastN 99 h.
Proof.
  unfold AgentLog.capHistory.
  destruct (100 <? length h)%nat eqn:E; [|reflexivity].
  apply Nat.ltb_lt in E. destruct h as [|first h]; [reflexivity|].
  unfold AgentLog.lastN at 1. cbn [length]. rewrite lastN_length.
  cbn [length] in *.
  replace (S (Nat.min 99 (S (length h))) - 99)%nat with 1%nat by lia.
  reflexivity.
Qed.

Lemma lastN_last {A : Type} (n : nat) (h : list A) :
  (0 < n)%nat -> last (AgentLog.lastN n h) = last h.
Proof.
  intros Hn. unfold AgentLog.lastN.
  destruct (decide (length h = 0)%nat) as [E|E].
  - destruct h; [reflexivity|discriminate].
  - rewrite !last_lookup, length_drop, lookup_drop. f_equal. lia.
Qed.

Lemma request_head_length stateMessage h :
  head (AgentLog.request stateMessage h)
  = head (h ++ [AgentLog.mkMessage AgentLog.user stateMessage])
  /\ (length (AgentLog.request stateMessage h) <= 100)%nat.
Proof.
  unfold AgentLog.request. split; [apply capHistory_head|].
  rewrite capHistory_length. lia.
Qed.

(** X2.  The messages sent with a request are the history with the new
    state message appended, cut down to at most 100: the first message and
    the newest 99 survive the cut, so the request always ends with the new
    state message and keeps the first message of the history. *)
Theorem request_shape (stateMessage : string) (h : list AgentLog.Message) :
  let sent := AgentLog.request stateMessage h in
  let turn := AgentLog.mkMessage AgentLog.user stateMessage in
  length sent = Nat.min (S (length h)) 100
  /\ head sent = head (h ++ [turn])
  /\ last sent = Some turn
  /\ AgentLog.lastN 99 sent = AgentLog.lastN 99 (h ++ [turn]).
Proof.
  intros sent turn. unfold sent, AgentLog.request. fold turn.
  split; [|split; [|split]].
  - rewrite capHistory_length, length_app. simpl. f_equal. lia.
  - apply capHistory_head.
  - rewrite <- (lastN_last 99) by lia. rewrite capHistory_lastN.
    rewrite lastN_last by lia. apply last_snoc.
  - apply capHistory_lastN.
Qed.

Lemma request_head stateMessage h first :
  head h = Some first ->
  head (AgentLog.request stateMessage h) = Some first.
Proof.
  intros Hh. rewrite (proj1 (request_head_length stateMessage h)).
  destruct h; [discriminate | exact Hh].
Qed.

Lemma response_head c h first :
  head h = Some first -> head (AgentLog.response c h) = Some first.
Proof.
  intros Hh. destruct c as [|[[|ch text]|]]; simpl; try exact Hh.
  destruct h; [discriminate | exact Hh].
Qed.

Lemma response_length c h :
  (length (AgentLog.response c h) <= S (length h))%nat.
Proof.
  destruct c as [|[[|ch text]|]]; simpl; rewrite ?length_app; simpl; lia.
Qed.

Lemma run_keeps_invariant n first steps :
  forall h k h' k',
    head h = Some first -> (length h + k <= 100 + n)%nat ->
    AgentLog.run n steps h k = Some (h', k') ->
    head h' = Some first /\ (length h' + k' <= 100 + n)%nat.
Proof.
  induction steps as [|[stateMessage|c] steps IH]; intros h k h' k' Hh Hl;
    simpl.
  - intros [= <- <-]. now split.
  - destruct (k <? n)%nat eqn:E; [|discriminate]. apply Nat.ltb_lt in E.
    apply IH; [now apply request_head|].
    pose proof (proj2 (request_head_length stateMessage h)). lia.
  - destruct k as [|k]; [discriminate|].
    apply IH; [now apply response_head|].
    pose proof (response_length c h). lia.
Qed.

(** X3.  In whatever order calls start and their completions come back,
    and whatever comes back, the history kept by the agent starts with the
    instruction turn; and as long as no more than [n] calls wait for their
    completion at any time, it holds at most 100 + [n] messages, less one
    for every call still waiting. *)
Theorem history_bounded (SYSTEM_PROMPT : string) (n : nat)
  (steps : list AgentLog.Step) (h : list AgentLog.Message) (k : nat) :
  AgentLog.run n steps (AgentLog.newHistory SYSTEM_PROMPT) 0 = Some (h, k) ->
  head h = Some (AgentLog.mkMessage AgentLog.system SYSTEM_PROMPT)
  /\ (length h + k <= 100 + n)%nat.
Proof.
  apply run_keeps_invariant; [reflexivity | simpl; lia].
Qed.

Lemma history_bounded_witness :
  (length [AgentLog.mkMessage AgentLog.system "instructions";
           AgentLog.mkMessage AgentLog.user "first state";
           AgentLog.mkMessage AgentLog.user "second state";
           AgentLog.mkMessage AgentLog.assistant "second reply"] + 1
   <= 100 + 2)%nat.
Proof.
  apply (proj2 (history_bounded "instructions" 2
                  [AgentLog.Start "first state"; AgentLog.Start "second state";
                   AgentLog.Finish (Agent.Reply (Some "second reply"))]
                  _ 1 eq_refl)).
Defined.

(** The bound is met: with 100 messages in the history, two calls that
    start before either completion is back leave 102 behind. *)
Lemma overlapping_calls_leave_102 :
  let quiet :=
    flat_map (fun _ => [AgentLog.Start "state"; AgentLog.Finish Agent.ApiError])
      (seq 0 99) in
  let overlap :=
    [AgentLog.Start "state"; AgentLog.Start "state";
     AgentLog.Finish (Agent.Reply (Some "reply"));
     AgentLog.Finish (Agent.Reply (Some "reply"))] in
  option_map (fun r => (length (fst r), snd r))
    (AgentLog.run 2 (quiet ++ overlap) (AgentLog.newHistory "instructions") 0)
  = Some (102%nat, 0%nat).
Proof. vm_compute. reflexivity. Qed.

(** ** The upgrade catalogue *)

Lemma fire_upgrades_cases render cb st :
  upgrades (fire render cb st) = upgrades st
  \/ exists upgrade,
       upgrades (fire render cb st) = map (markPurchased upgrade) (upgrades st).
Proof.
  destruct cb as [type|upgrade| | | |currentTime r1 r2|]; simpl; auto.
  - left. apply handleAction_upgrades.
  - unfold purchaseUpgrade. handler_cases; eauto.
  - left. now destruct (countdownTick_fields st) as (_ & _ & ->).
  - left. now destruct (eventTick_fields render currentTime r1 r2 st)
      as (_ & _ & _ & -> & _).
Qed.

Lemma markPurchased_sameEntry upgrade u v :
  sameEntry u v -> sameEntry u (markPurchased upgrade v).
Proof.
  unfold sameEntry, markPurchased. destruct (String.eqb _ _); simpl; tauto.
Qed.

Lemma catalogue_markPurchased upgrade ups :
  catalogue ups -> catalogue (map (markPurchased upgrade) ups).
Proof.
  unfold catalogue. induction 1 as [|u v l ups Huv _ IH]; simpl;
    constructor; auto using markPurchased_sameEntry.
Qed.

Lemma reachable_catalogue a : reachable a -> catalogue (upgrades (current a)).
Proof.
  induction 1 as [|a render cb _ IH _].
  - unfold catalogue. simpl. repeat constructor.
  - simpl. rewrite commit_upgrades.
    destruct (fire_upgrades_cases render cb (current a)) as [->|[u ->]];
      [exact IH | now apply catalogue_markPurchased].
Qed.

Lemma catalogue_ids ups :
  catalogue ups -> map id ups = map id initialUpgrades.
Proof.
  unfold catalogue. induction 1 as [|u v l ups Huv _ IH]; simpl;
    [reflexivity|].
  f_equal; [apply Huv | exact IH].
Qed.

Lemma catalogue_NoDup ups : catalogue ups -> List.NoDup (map id ups).
Proof.
  intros H. rewrite (catalogue_ids ups H). simpl.
  repeat (constructor; [simpl; intuition discriminate|]). constructor.
Qed.

Lemma catalogue_multipliers ups :
  catalogue ups -> Forall (fun u => 1 <= multiplier u) ups.
Proof.
  assert (Hinit : Forall (fun u => 1 <= multiplier u) initialUpgrades)
    by (repeat constructor; simpl; lra).
  unfold catalogue. intros H. revert Hinit.
  induction H as [|u v l ups Huv _ IH]; intros Hl; [constructor|].
  inversion Hl as [|u' l' Hu Hrest]; subst. constructor; [|now apply IH].
  destruct Huv as (_ & _ & _ & _ & ->). exact Hu.
Qed.

Lemma stackProduct_ge_1 ups type :
  Forall (fun u => 1 <= multiplier u) ups -> 1 <= stackProduct ups type.
Proof.
  induction 1 as [|u rest Hu _ IH]; simpl; [lra|].
  destruct (purchased u && bool_decide (resourceType u = type)); [|exact IH].
  apply Qle_trans with (1 * 1); [lra|].
  apply Qmult_le_compat_nonneg; split; lra.
Qed.

(** X5.  In every reachable session the upgrade list is the initial
    catalogue, entry by entry, with only [purchased] flags changed; so the
    ids stay pairwise distinct and the multiplier of every resource type is
    at least 1. *)
Theorem catalogue_kept (a : Session) :
  reachable a ->
  catalogue (upgrades (current a))
  /\ List.NoDup (map id (upgrades (current a)))
  /\ forall type, 1 <= getMultiplier (upgrades (current a)) type.
Proof.
  intros Hreach. pose proof (reachable_catalogue a Hreach) as Hcat.
  split; [exact Hcat|]. split; [now apply catalogue_NoDup|].
  intros type. rewrite getMultiplier_stackProduct.
  now apply stackProduct_ge_1, catalogue_multipliers.
Qed.

Lemma catalogue_kept_witness :
  1 <= getMultiplier
         (upgrades (current
            (deliver initialState (OnGenerate Energy) initialSession)))
         Energy.
Proof.
  apply (catalogue_kept
           (deliver initialState (OnGenerate Energy) initialSession)).
  apply reach_step; [apply reach_init|]. simpl. now left.
Defined.

(** ** The critical flag and the countdown *)

Lemma fire_timers render cb st :
  cb <> OnCountdown ->
  criticalTimer (fire render cb st) = criticalTimer st
  /\ countdownSeconds (fire render cb st) = countdownSeconds st
  /\ gameLost (fire render cb st) = gameLost st.
Proof.
  intros Hcb.
  destruct cb as [type|upgrade| | | |currentTime r1 r2|]; simpl;
    try congruence; try tauto.
  - unfold handleAction. repeat split; handler_cases.
  - unfold purchaseUpgrade. repeat split; handler_cases.
  - unfold eventTick. destruct (selectEvent _ _ _ _); simpl; tauto.
Qed.

Lemma consistent_bounded s : timersConsistent s -> timersBounded s.
Proof. unfold timersConsistent, timersBounded. tauto. Qed.

Lemma commit_consistent s : timersBounded s -> timersConsistent (commit s).
Proof.
  intros (H1 & H2 & H3 & H4 & H5).
  unfold timersConsistent.
  destruct (commit_critical s) as [-> ->].
  rewrite commit_gameLost, commit_gameStarted, commit_gameWon,
    commit_resources.
  unfold criticalEffect.
  destruct (gameStarted s), (gameWon s), (gameLost s) eqn:El; simpl;
    try (repeat split; (tauto || discriminate || (intros; discriminate))).
  all: destruct (isCritical (resources s)) eqn:Ec; simpl;
    try destruct (criticalTimer s =? 0)%Z eqn:Et; simpl;
    rewrite ?Z.eqb_eq, ?Z.eqb_neq in *;
    repeat split; intros;
      try discriminate; try tauto; try lia; try congruence.
Qed.

Lemma countdownTick_bounded s :
  timersConsistent s -> countdownActive s = true ->
  timersBounded (countdownTick s).
Proof.
  intros (H1 & H2 & H3 & H4 & H5 & H6) Hact.
  unfold countdownActive in Hact.
  repeat (apply andb_true_iff in Hact as [Hact ?]).
  rewrite negb_true_iff in *.
  assert (Ht : criticalTimer s = 1%Z) by (apply H6; assumption).
  unfold timersBounded, countdownTick.
  destruct (countdownSeconds s <=? 1)%Z eqn:E; simpl;
    rewrite ?Z.leb_le, ?Z.leb_gt in *;
    repeat split; intros; try discriminate; try tauto;
    try (specialize (H4 ltac:(assumption))); try lia; try congruence.
Qed.

Lemma reachable_timers a : reachable a -> timersConsistent (current a).
Proof.
  induction 1 as [|a render cb _ IH Hrun].
  - unfold timersConsistent. simpl. repeat split; intros;
      try discriminate; try lia; auto.
  - simpl. apply commit_consistent.
    destruct (match cb with OnCountdown => true | _ => false end) eqn:Ek.
    + destruct cb; try discriminate. simpl in *.
      now apply countdownTick_bounded.
    + assert (Hcb : cb <> OnCountdown) by (intros ->; discriminate).
      destruct (fire_timers render cb (current a) Hcb) as (E1 & E2 & E3).
      apply consistent_bounded in IH. unfold timersBounded in *.
      now rewrite E1, E2, E3.
Qed.

(** X6.  In every reachable session the critical flag is 0 or 1 and the
    countdown is between 0 and 30; the countdown reads 30 whenever the flag
    is 0, is at least 1 until the game is lost and is 0 from then on; and
    while the game is running the flag is 1 exactly when oxygen, water or
    energy is at or below 5. *)
Theorem timers_consistent (a : Session) :
  reachable a ->
  let s := current a in
  (criticalTimer s = 0 \/ criticalTimer s = 1)%Z
  /\ (0 <= countdownSeconds s <= 30)%Z
  /\ (criticalTimer s = 0%Z -> countdownSeconds s = 30%Z)
  /\ (gameLost s = false -> (1 <= countdownSeconds s)%Z)
  /\ (gameLost s = true -> countdownSeconds s = 0%Z)
  /\ (gameStarted s = true -> gameWon s = false -> gameLost s = false ->
      (criticalTimer s = 1%Z <-> monitoredLow (resources s))).
Proof.
  intros Hreach s.
  destruct (reachable_timers a Hreach) as (H1 & H2 & H3 & H4 & H5 & H6).
  fold s in H1, H2, H3, H4, H5, H6.
  split; [exact H1|]. split; [exact H2|]. split; [exact H3|].
  split; [exact H4|]. split; [intros Hl; now apply H5|].
  intros Hs Hw Hl. rewrite <- isCritical_spec. now apply H6.
Qed.

Lemma timers_consistent_witness :
  (1 <= countdownSeconds
          (current (deliver initialState (OnGenerate Energy) initialSession)))%Z.
Proof.
  apply (timers_consistent
           (deliver initialState (OnGenerate Energy) initialSession)).
  - apply reach_step; [apply reach_init|]. simpl. now left.
  - reflexivity.
Defined.

Lemma ticking_current n :
  current (ticking n) = Nat.iter n countdownStep (current (ticking 0)).
Proof.
  induction n as [|n IH]; [reflexivity|].
  change (ticking (S n))
    with (deliver (current (ticking n)) OnCountdown (ticking n)).
  rewrite Nat.iter_succ, <- IH. reflexivity.
Qed.

Lemma ticking_countdown n :
  (n < 30)%nat ->
  current (ticking n)
  = setCountdownSeconds (fun _ => 30 - Z.of_nat n)%Z
      (setCriticalTimer 1 (handleAction initialState Energy initialState)).
Proof.
  intros Hn. rewrite ticking_current.
  change (current (ticking 0))
    with (commit (handleAction initialState Energy initialState)).
  now apply steps_in_episode.
Qed.

Lemma ticking_reachable n : (n <= 30)%nat -> reachable (ticking n).
Proof.
  induction n as [|n IH]; intros Hn.
  - apply reach_step; [apply reach_init | simpl; now left].
  - change (ticking (S n))
      with (deliver (current (ticking n)) OnCountdown (ticking n)).
    apply reach_step; [apply IH; lia|].
    split; [reflexivity|]. rewrite ticking_countdown by lia. reflexivity.
Qed.

(** X7.  A reachable session is lost by the countdown callback and by
    nothing else, and only when that callback runs with the countdown at 1
    while oxygen, water or energy is at or below 5. *)
Theorem lost_by_countdown (a : Session) (render : State) (cb : Callback) :
  reachable a -> canRun a render cb ->
  gameLost (current a) = false ->
  gameLost (current (deliver render cb a)) = true ->
  cb = OnCountdown
  /\ countdownSeconds (current a) = 1%Z
  /\ monitoredLow (resources (current a)).
Proof.
  intros Hreach Hrun Hl Hl'. simpl in Hl'. rewrite commit_gameLost in Hl'.
  destruct (match cb with OnCountdown => true | _ => false end) eqn:Ek.
  - destruct cb; try discriminate. simpl in *. destruct Hrun as [_ Hact].
    split; [reflexivity|].
    destruct (reachable_timers a Hreach) as (_ & _ & _ & H4 & _).
    specialize (H4 Hl). split.
    + unfold countdownTick in Hl'.
      destruct (countdownSeconds (current a) <=? 1)%Z eqn:E.
      * apply Z.leb_le in E. lia.
      * simpl in Hl'. congruence.
    + apply isCritical_spec. unfold countdownActive in Hact.
      now apply andb_true_iff in Hact as [_ Hc].
  - assert (Hcb : cb <> OnCountdown) by (intros ->; discriminate).
    destruct (fire_timers render cb (current a) Hcb) as (_ & _ & E).
    congruence.
Qed.

Lemma lost_by_countdown_witness :
  countdownSeconds (current (ticking 29)) = 1%Z.
Proof.
  apply (lost_by_countdown (ticking 29) (current (ticking 29)) OnCountdown).
  - apply ticking_reachable. lia.
  - split; [reflexivity | vm_compute; reflexivity].
  - vm_compute. reflexivity.
  - vm_compute. reflexivity.
Defined.

(** ** Terminal states *)

Lemma commit_credits' s : credits (commit s) = credits s.
Proof. commit_cases. Qed.


Lemma fire_flags_kept render cb st :
  (gameStarted st = true -> gameStarted (fire render cb st) = true)
  /\ (gameWon st = true -> gameWon (fire render cb st) = true)
  /\ (gameLost st = true -> gameLost (fire render cb st) = true).
Proof.
  destruct cb as [type|upgrade| | | |currentTime r1 r2|]; simpl;
    try tauto.
  - destruct (handleAction_flags render type st) as (-> & -> & _).
    split; [|tauto]. intros Hs. unfold handleAction.
    rewrite <- Hs. handler_cases.
  - destruct (purchaseUpgrade_flags render upgrade st) as (-> & -> & _).
    split; [|tauto]. intros Hs. unfold purchaseUpgrade.
    rewrite <- Hs. handler_cases.
  - unfold countdownTick. destruct (_ <=? _)%Z; simpl; tauto.
  - unfold eventTick. destruct (selectEvent _ _ _ _); simpl; tauto.
Qed.

Lemma terminal_handlers s type upgrade :
  gameWon s = true \/ gameLost s = true ->
  handleAction s type s = started s /\ purchaseUpgrade s upgrade s = started s.
Proof.
  intros Hterm. split; [|apply purchaseUpgrade_rejected; tauto].
  unfold handleAction, started.
  destruct Hterm as [-> | ->]; rewrite ?orb_true_r; simpl;
    now destruct (gameStarted s).
Qed.

Lemma started_fields s :
  resources (started s) = resources s /\ credits (started s) = credits s
  /\ upgrades (started s) = upgrades s.
Proof. unfold started. now destruct (gameStarted s). Qed.

(** X8.  No callback, from whatever render, ever clears [gameStarted],
    [gameWon] or [gameLost]; and once a reachable session is won or lost, no
    callback of its current render that can still run changes the
    resources, the credits or the upgrades. *)
Theorem terminal_is_final (a : Session) (cb : Callback) :
  (forall render st,
     (gameStarted st = true -> gameStarted (commit (fire render cb st)) = true)
     /\ (gameWon st = true -> gameWon (commit (fire render cb st)) = true)
     /\ (gameLost st = true -> gameLost (commit (fire render cb st)) = true))
  /\ (reachable a ->
      gameWon (current a) = true \/ gameLost (current a) = true ->
      canRun a (current a) cb ->
      let s' := current (deliver (current a) cb a) in
      resources s' = resources (current a)
      /\ credits s' = credits (current a)
      /\ upgrades s' = upgrades (current a)).
Proof.
  split.
  - intros render st.
    destruct (fire_flags_kept render cb st) as (Hs & Hw & Hl).
    rewrite commit_gameStarted, commit_gameWon, commit_gameLost.
    repeat split; intros H; auto.
    rewrite (Hw H). reflexivity.
  - intros Hreach Hterm Hrun s'. unfold s'. simpl.
    rewrite commit_resources, commit_credits', commit_upgrades.
    pose proof (reachable_inv a Hreach) as (_ & _ & Hiv).
    assert (Hoff : drainActive (current a) = false).
    { unfold drainActive. destruct Hterm as [-> | ->]; simpl;
        now rewrite ?andb_false_r. }
    destruct cb as [type|upgrade| | | |currentTime r1 r2|]; simpl in *.
    + rewrite (proj1 (terminal_handlers _ type oxygen1 Hterm)).
      apply started_fields.
    + rewrite (proj2 (terminal_handlers _ Oxygen upgrade Hterm)).
      apply started_fields.
    + tauto.
    + destruct Hrun as [_ Hact]. congruence.
    + destruct Hrun as [_ Hact]. unfold countdownActive in Hact.
      unfold drainActive in Hoff. rewrite Hoff in Hact. discriminate.
    + destruct Hrun as [Hsome _].
      assert (Hon : eventRollActive (current a) = true)
        by (apply Hiv; now rewrite Hsome).
      unfold eventRollActive in Hon. unfold drainActive in Hoff.
      rewrite Hoff in Hon. discriminate.
    + tauto.
Qed.

Lemma terminal_is_final_witness :
  resources (current (deliver (current (ticking 30)) (OnGenerate Oxygen)
                        (ticking 30)))
  = resources (current (ticking 30)).
Proof.
  apply (proj2 (terminal_is_final (ticking 30) (OnGenerate Oxygen))).
  - apply ticking_reachable. lia.
  - right. vm_compute. reflexivity.
  - simpl. now left.
Defined.

Lemma commit_cleanup s :
  gameLost s = true ->
  eventCooldowns (commit s) = ∅ /\ currentEvent (commit s) = None.
Proof. intros Hl. unfold commit, cleanupEffect. now rewrite Hl. Qed.

(** X9.  In a reachable session that is lost, no event is on display, the
    cooldown map is empty and the event interval is gone. *)
Theorem lost_is_cleaned (a : Session) :
  reachable a -> gameLost (current a) = true ->
  eventCooldowns (current a) = ∅
  /\ currentEvent (current a) = None
  /\ eventInterval a = None.
Proof.
  intros Hreach Hl.
  assert (Hiv : eventInterval a = None).
  { pose proof (reachable_inv a Hreach) as (_ & _ & Hiv).
    destruct (eventInterval a) as [r|] eqn:E; [|reflexivity].
    assert (Hon : eventRollActive (current a) = true)
      by (apply Hiv; eauto).
    unfold eventRollActive in Hon. rewrite Hl in Hon. simpl in Hon.
    now rewrite andb_false_r in Hon. }
  destruct Hreach as [|a render cb _ _]; [discriminate|].
  simpl in Hl. rewrite commit_gameLost in Hl.
  destruct (commit_cleanup _ Hl) as [Hc He]. auto.
Qed.

Lemma lost_is_cleaned_witness : eventCooldowns (current (ticking 30)) = ∅.
Proof.
  apply (lost_is_cleaned (ticking 30)).
  - apply ticking_reachable. lia.
  - vm_compute. reflexivity.
Defined.

(** ** Event rolls *)

Lemma cleanCooldowns_lookup currentTime cooldowns k timestamp :
  cleanCooldowns currentTime cooldowns !! k = Some timestamp
  <-> cooldowns !! k = Some timestamp
      /\ (currentTime - timestamp <= 15000)%Z.
Proof.
  unfold cleanCooldowns. rewrite map_lookup_filter_Some. simpl.
  split; intros [H1 H2]; split; auto; lia.
Qed.

(** X10.  After an event roll at time [now], whatever it picked, every
    entry of the cooldown map is at most 15 s old and every entry that was
    at most 15 s old is still there, unless it belongs to the event picked,
    which is stamped [now]; the event picked is put on display and its
    effect applied to the resources, and a roll that picks nothing leaves
    resources and display alone. *)
Theorem roll_cooldowns (render : State) (now : Z) (r1 r2 : Q) (st : State) :
  let st' := eventTick render now r1 r2 st in
  (forall k timestamp,
     eventCooldowns st' !! k = Some timestamp ->
     (now - timestamp <= 15000)%Z)
  /\ (forall k timestamp,
        eventCooldowns st !! k = Some timestamp ->
        (now - timestamp <= 15000)%Z ->
        (eid <$> selectEvent (eventCooldowns render) now r1 r2) <> Some k ->
        eventCooldowns st' !! k = Some timestamp)
  /\ match selectEvent (eventCooldowns render) now r1 r2 with
     | Some e =>
         eventCooldowns st' !! eid e = Some now
         /\ currentEvent st' = Some e
         /\ resources st' = effect e (resources st)
     | None =>
         currentEvent st' = currentEvent st /\ resources st' = resources st
     end.
Proof.
  intros st'. unfold st', eventTick.
  destruct (selectEvent (eventCooldowns render) now r1 r2) as [e|]; simpl.
  - split; [|split].
    + intros k timestamp.
      destruct (decide (eid e = k)) as [<-|Hne].
      * rewrite lookup_insert_eq. intros [= <-]. lia.
      * rewrite lookup_insert_ne by exact Hne.
        intros H. now apply cleanCooldowns_lookup in H.
    + intros k timestamp Hk Hage Hsel.
      rewrite lookup_insert_ne by congruence.
      now apply cleanCooldowns_lookup.
    + rewrite lookup_insert_eq. auto.
  - split; [|split].
    + intros k timestamp H. now apply cleanCooldowns_lookup in H.
    + intros k timestamp Hk Hage _. now apply cleanCooldowns_lookup.
    + auto.
Qed.

Lemma roll_cooldowns_witness :
  eventCooldowns
    (eventTick initialState 20000 0.25 0
       (setEventCooldowns (insert "sandstorm" 9000%Z) initialState))
  !! "sandstorm" = Some 9000%Z.
Proof.
  apply (proj1 (proj2 (roll_cooldowns initialState 20000 0.25 0
           (setEventCooldowns (insert "sandstorm" 9000%Z) initialState)))).
  - reflexivity.
  - lia.
  - vm_compute. discriminate.
Defined.

(** X11.  On resources within their ranges every event does what its
    severity says: a negative event raises no resource and a positive one
    lowers none. *)
Theorem events_follow_severity (e : Event) (r : Resource) :
  In e events -> inRange r ->
  match severity e with
  | negative_ => below (effect e r) r
  | positive_ => below r (effect e r)
  end.
Proof.
  intros Hin (Ho & Hw & Ht & He). unfold events in Hin. simpl in Hin.
  repeat (destruct Hin as [<-|Hin];
          [unfold below; simpl; repeat split;
           try apply Qle_refl;
           try (apply Q.max_lub; lra);
           try (apply Q.min_glb; lra)|]).
  destruct Hin.
Qed.

Lemma events_follow_severity_witness :
  energy (energySurgeEffect initialResources) <= energy initialResources.
Proof.
  apply (events_follow_severity
           (mkEvent "energy_surge" "Energy Grid Surge"
              "Power systems are overloading!" energySurgeEffect negative_)
           initialResources).
  - unfold events. simpl. do 11 right. left. reflexivity.
  - apply initialResources_inRange.
Defined.

(** ** The drain *)

(** X12.  A drain tick raises no resource that is within its range. *)
Theorem drain_lowers (r : Resource) :
  inRange r -> below (drain r) r.
Proof.
  intros (Ho & Hw & Ht & He).
  destruct (efficiency_bounds (energy r)) as [Hf0 Hf1]; [tauto..|].
  unfold drain, below. simpl. set (f := energy r / 100) in *.
  assert (H12 : 0 <= 1.2 * (2 - f)) by (apply Qmult_le_0_compat; lra).
  assert (H08 : 0 <= 0.8 * (2 - f)) by (apply Qmult_le_0_compat; lra).
  assert (H04 : 0 <= 0.4 * (2 - f)) by (apply Qmult_le_0_compat; lra).
  repeat split; apply Q.max_lub; lra.
Qed.

Lemma drain_lowers_witness : below (drain initialResources) initialResources.
Proof.
  apply (drain_lowers initialResources).
  apply initialResources_inRange.
Defined.

(** ** Generation and purchases *)

Lemma raise_above hi x g : x <= hi -> 0 <= g -> x <= Qmin hi (x + g).
Proof. intros Hx Hg. apply Q.min_glb; lra. Qed.

(** X13.  A call of [handleAction], from a render whose multipliers are not
    negative and on resources within their ranges, never lowers the
    resource it generates, never raises the energy unless energy is what it
    generates, leaves the other resources as they are, and adds 2 credits
    or none. *)
Theorem generate_direction (render : State) (type : ResourceKey)
  (st : State) :
  nonnegMultipliers (upgrades render) -> inRange (resources st) ->
  let st' := handleAction render type st in
  getField type (resources st) <= getField type (resources st')
  /\ (type <> Energy -> energy (resources st') <= energy (resources st))
  /\ (forall k, k <> type -> k <> Energy ->
        getField k (resources st') = getField k (resources st))
  /\ (credits st' = credits st \/ credits st' = (credits st + 2)%Z).
Proof.
  intros Hm (Ho & Hw & Ht & He) st'. unfold st', handleAction.
  pose proof (getMultiplier_nonneg _ type Hm) as Hmul.
  assert (Hgain : forall b, 0 <= b ->
            0 <= b * getMultiplier (upgrades render) type
                 * (energy (resources st) / 100))
    by (intros b Hb; apply gain_nonneg; tauto).
  assert (Hg8 : 0 <= 8 * getMultiplier (upgrades render) type)
    by (apply Qmult_le_0_compat; lra).
  assert (Hcost : Qmax 0 (energy (resources st) - 10) <= energy (resources st))
    by (apply Q.max_lub; lra).
  destruct (negb (gameStarted render)), (gameWon render || gameLost render);
    simpl;
    try (repeat split; auto using Qle_refl; intros; apply Qle_refl).
  all: destruct type; simpl;
    try destruct (Qltb (energy (resources render)) 10); simpl;
    repeat split; auto using Qle_refl; intros;
    try apply Qle_refl; try congruence;
    try (apply raise_above; [tauto | apply Hgain; lra]);
    try (apply raise_above; [tauto | exact Hg8]);
    try exact Hcost;
    try (destruct k; simpl; congruence).
Qed.

Lemma generate_direction_witness :
  oxygen (resources initialState)
  <= oxygen (resources (handleAction initialState Oxygen initialState)).
Proof.
  apply (proj1 (generate_direction initialState Oxygen initialState
                  initialUpgrades_nonneg initialResources_inRange)).
Defined.

Lemma markPurchased_absent upgrade ups :
  ~ In (id upgrade) (map id ups) -> map (markPurchased upgrade) ups = ups.
Proof.
  induction ups as [|x ups IH]; simpl; intros Hni; [reflexivity|].
  rewrite IH by tauto. f_equal. unfold markPurchased.
  destruct (String.eqb (id x) (id upgrade)) eqn:E; [|reflexivity].
  apply String.eqb_eq in E. tauto.
Qed.

Lemma markPurchased_other upgrade x :
  id x <> id upgrade -> markPurchased upgrade x = x.
Proof.
  intros Hne. unfold markPurchased. apply String.eqb_neq in Hne.
  now rewrite Hne.
Qed.

Lemma markPurchased_self x :
  markPurchased x x
  = mkUpgrade (id x) (name x) (cost x) (resourceType x) (multiplier x) true.
Proof. unfold markPurchased. now rewrite String.eqb_refl. Qed.

Lemma unique_entry (ups : list Upgrade) u x rest :
  ups = x :: rest -> List.NoDup (map id ups) -> In u ups ->
  (u = x /\ ~ In (id u) (map id rest))
  \/ (In u rest /\ id x <> id u).
Proof.
  intros -> Hnd Hin. simpl in Hnd. inversion Hnd as [|i l Hni Hrest]; subst.
  destruct Hin as [->|Hin]; [left; auto|].
  right. split; [exact Hin|]. intros E. apply Hni. rewrite E.
  now apply in_map.
Qed.

Lemma spent_markPurchased u ups :
  List.NoDup (map id ups) -> In u ups -> purchased u = false ->
  spent (map (markPurchased u) ups) = (spent ups + cost u)%Z.
Proof.
  induction ups as [|x rest IH]; intros Hnd Hin Hp; [destruct Hin|].
  destruct (unique_entry _ u x rest eq_refl Hnd Hin) as [[-> Hni]|[Hin' Hne]].
  - simpl. rewrite markPurchased_absent by exact Hni.
    rewrite markPurchased_self. simpl. rewrite Hp. lia.
  - simpl. inversion Hnd as [|i l _ Hrest]; subst.
    rewrite (markPurchased_other u x Hne), (IH Hrest Hin' Hp).
    destruct (purchased x); lia.
Qed.


(** X14.  In a reachable session, buying an upgrade of the current render
    neither creates nor loses credits: the credits plus the cost of the
    purchased upgrades are the same before and after the call, accepted or
    not, and credits that were not negative do not become negative. *)
Theorem purchase_accounts (a : Session) (u : Upgrade) :
  reachable a -> In u (upgrades (current a)) ->
  let s := current a in
  let s' := purchaseUpgrade s u s in
  (credits s' + spent (upgrades s') = credits s + spent (upgrades s))%Z
  /\ ((0 <= credits s)%Z -> (0 <= credits s')%Z).
Proof.
  intros Hreach Hin s s'.
  pose proof (catalogue_NoDup _ (reachable_catalogue a Hreach)) as Hnd.
  fold s in Hnd, Hin.
  destruct (started_fields s) as (_ & Hc & Hu).
  destruct (gameWon s) eqn:Hw; [|destruct (gameLost s) eqn:Hl;
    [|destruct (purchased u) eqn:Hp;
      [|destruct (Z.ltb (credits s) (cost u)) eqn:Hlt]]].
  1-4: unfold s'; rewrite purchaseUpgrade_rejected
         by (rewrite ?Z.ltb_lt in *; tauto);
       rewrite Hc, Hu; split; [reflexivity | tauto].
  apply Z.ltb_ge in Hlt. unfold s'.
  rewrite (purchaseUpgrade_accepted s u Hw Hl Hp Hlt). simpl.
  rewrite Hc, Hu, (spent_markPurchased u _ Hnd Hin Hp). split; lia.
Qed.

Lemma purchase_accounts_witness :
  (credits (purchaseUpgrade initialState oxygen1 initialState)
   + spent (upgrades (purchaseUpgrade initialState oxygen1 initialState))
   = credits initialState + spent (upgrades initialState))%Z.
Proof.
  apply (proj1 (purchase_accounts initialSession oxygen1 reach_init
                  ltac:(simpl; now left))).
Defined.


Lemma earning_reachable n : reachable (earning n).
Proof.
  induction n as [|n IH]; [apply reach_init|].
  change (earning (S n))
    with (deliver (current (earning n)) (OnGenerate Energy) (earning n)).
  apply reach_step; [exact IH|]. simpl. now left.
Qed.


(** ** The render effects *)

(** X16.  The effects of a render settle in one pass, running them again
    on their own result changes nothing, and they never write the
    resources, the credits, the upgrades, [gameStarted], [gameLost] or
    [eventsEnabled]. *)
Theorem effects_settle (s : State) :
  commit (commit s) = commit s
  /\ resources (commit s) = resources s
  /\ credits (commit s) = credits s
  /\ upgrades (commit s) = upgrades s
  /\ gameStarted (commit s) = gameStarted s
  /\ gameLost (commit s) = gameLost s
  /\ eventsEnabled (commit s) = eventsEnabled s.
Proof.
  split; [apply commit_settles|].
  split; [apply commit_resources|]. split; [apply commit_credits'|].
  split; [apply commit_upgrades|]. split; [apply commit_gameStarted|].
  split; [apply commit_gameLost | apply commit_eventsEnabled].
Qed.

(** ** The action dispatcher *)







(** ** The snapshot handed to the agent *)

Lemma fire_criticalTimer render cb st :
  criticalTimer (fire render cb st) = criticalTimer st.
Proof.
  destruct (match cb with OnCountdown => true | _ => false end) eqn:Ek.
  - destruct cb; try discriminate. simpl. unfold countdownTick.
    now destruct (_ <=? _)%Z.
  - assert (Hcb : cb <> OnCountdown) by (intros ->; discriminate).
    now destruct (fire_timers render cb st Hcb) as (-> & _).
Qed.

Lemma fire_bounded a render cb :
  reachable a -> canRun a render cb ->
  timersBounded (fire render cb (current a)).
Proof.
  intros Hreach Hrun. pose proof (reachable_timers a Hreach) as IH.
  destruct (match cb with OnCountdown => true | _ => false end) eqn:Ek.
  - destruct cb; try discriminate. simpl in *.
    now apply countdownTick_bounded.
  - assert (Hcb : cb <> OnCountdown) by (intros ->; discriminate).
    destruct (fire_timers render cb (current a) Hcb) as (E1 & E2 & E3).
    apply consistent_bounded in IH. unfold timersBounded in *.
    now rewrite E1, E2, E3.
Qed.

(** X18.  The snapshot's countdown follows the critical flag of the render
    it is built from.  Built from a settled render of a reachable running
    session, it carries the countdown, a number from 1 to 30, exactly when
    oxygen, water or energy is at or below 5.  Built from the render a
    callback leaves behind, before what the effects of that render set has
    been rendered (as the first request is, in the effect pass that follows
    the starting click), it still goes by the flag as it was before the
    callback,
    whatever the callback did to the resources: a countdown from 0 to 30 if
    the flag was set, none if it was not. *)
Theorem snapshot_countdown (a : Session) :
  reachable a ->
  let s := current a in
  (gameStarted s = true -> gameWon s = false -> gameLost s = false ->
   (monitoredLow (resources s) ->
    gs_criticalTimer (makeGameState s) = Some (countdownSeconds s)
    /\ (1 <= countdownSeconds s <= 30)%Z)
   /\ (~ monitoredLow (resources s) ->
       gs_criticalTimer (makeGameState s) = None))
  /\ (forall render cb,
        canRun a render cb ->
        let s1 := fire render cb s in
        gs_criticalTimer (makeGameState s1)
        = (if (criticalTimer s =? 1)%Z then Some (countdownSeconds s1)
           else None)
        /\ (0 <= countdownSeconds s1 <= 30)%Z).
Proof.
  intros Hreach s. split.
  - intros Hs Hw Hl.
    destruct (reachable_timers a Hreach) as (H1 & H2 & _ & H4 & _ & H6).
    fold s in H1, H2, H4, H6. specialize (H6 Hs Hw Hl). specialize (H4 Hl).
    unfold makeGameState. simpl. split.
    + intros Hlow. apply isCritical_spec, H6 in Hlow. rewrite Hlow. simpl.
      split; [reflexivity | lia].
    + intros Hhigh.
      destruct H1 as [-> | H1]; [reflexivity|].
      exfalso. apply Hhigh, isCritical_spec, H6, H1.
  - intros render cb Hrun s1.
    destruct (fire_bounded a render cb Hreach Hrun) as (_ & H2 & _).
    split; [|exact H2].
    unfold makeGameState, s1. simpl. rewrite fire_criticalTimer.
    destruct (reachable_timers a Hreach) as ([E | E] & _); fold s in E;
      now rewrite E.
Qed.

Lemma snapshot_countdown_witness :
  gs_criticalTimer (makeGameState (current (ticking 3))) = Some 27%Z
  /\ monitoredLow
       (resources (handleAction initialState Energy initialState))
  /\ gs_criticalTimer
       (makeGameState (handleAction initialState Energy initialState))
     = None.
Proof.
  split; [|split].
  - apply (proj1 (snapshot_countdown (ticking 3)
                    (ticking_reachable 3 ltac:(lia)))
             eq_refl eq_refl eq_refl).
    right. left. vm_compute. discriminate.
  - left. vm_compute. discriminate.
  - apply (proj2 (snapshot_countdown initialSession reach_init)
             initialState (OnGenerate Energy)).
    simpl. now left.
Defined.

(** ** The observer *)

Lemma recordSnapshot_app currentTime gameState history :
  Observer.recordSnapshot currentTime gameState history
  = List.filter
      (fun h => (currentTime - 5 * 60 * 1000 <? Observer.timestamp h)%Z)
      history
    ++ [Observer.snapshot currentTime gameState].
Proof.
  unfold Observer.recordSnapshot. rewrite List.filter_app. simpl.
  destruct (_ <? _)%Z eqn:E; [reflexivity|]. apply Z.ltb_ge in E. lia.
Qed.

Lemma getAnalysis_gameHistory JSON_parse format currentTime gameState c o :
  Observer.gameHistory
    (snd (Observer.getAnalysis JSON_parse format currentTime gameState c o))
  = Observer.recordSnapshot currentTime gameState (Observer.gameHistory o).
Proof.
  unfold Observer.getAnalysis.
  destruct (_ <? _)%Z; [reflexivity|].
  destruct c as [|[[|ch text]|]]; reflexivity.
Qed.

(** X19.  After every call of [getAnalysis], throttled or not, the game
    history ends with the snapshot just taken, so it is never empty; it
    holds only entries younger than 5 minutes, and every entry that was
    younger than 5 minutes is still in it. *)
Theorem history_window (JSON_parse : string -> option Agent.JSON)
  (format : GameState -> list Observer.GameHistory -> string)
  (currentTime : Z) (gameState : GameState) (c : Agent.Completion)
  (o : Observer.ObserverState) :
  let window :=
    Observer.gameHistory
      (snd (Observer.getAnalysis JSON_parse format currentTime gameState c o))
  in
  last window = Some (Observer.snapshot currentTime gameState)
  /\ window <> []
  /\ Forall (fun h => (currentTime - 300000 < Observer.timestamp h)%Z) window
  /\ (forall h, In h (Observer.gameHistory o) ->
                (currentTime - 300000 < Observer.timestamp h)%Z ->
                In h window).
Proof.
  intros window. unfold window.
  rewrite getAnalysis_gameHistory, recordSnapshot_app.
  split; [apply last_snoc|]. split; [now destruct (List.filter _ _)|].
  split.
  - apply List.Forall_forall. intros h Hin.
    apply in_app_iff in Hin as [Hin|[<-|[]]].
    + apply filter_In in Hin as [_ Hin]. apply Z.ltb_lt in Hin. lia.
    + simpl. lia.
  - intros h Hin Hage. apply in_app_iff. left. apply filter_In.
    split; [exact Hin|]. apply Z.ltb_lt. lia.
Qed.

Lemma history_window_witness :
  In (Observer.mkGameHistory 1000 initialResources 30 [] None)
     (Observer.gameHistory
        (snd (Observer.getAnalysis (fun _ => None) (fun _ _ => "state")
                200000 (makeGameState initialState) Agent.ApiError
                (Observer.mkObserverState []
                   [Observer.mkGameHistory 1000 initialResources 30 [] None]
                   0)))).
Proof.
  apply (history_window (fun _ => None) (fun _ _ => "state") 200000
           (makeGameState initialState) Agent.ApiError).
  - simpl. now left.
  - simpl. lia.
Defined.

Lemma getAnalysis_throttled JSON_parse format currentTime gameState c o :
  (currentTime - Observer.lastAnalysisTime o < 10000)%Z ->
  Observer.getAnalysis JSON_parse format currentTime gameState c o
  = (Observer.getDefaultAnalysis,
     Observer.mkObserverState (Observer.messageHistory o)
       (Observer.recordSnapshot currentTime gameState (Observer.gameHistory o))
       (Observer.lastAnalysisTime o)).
Proof.
  intros Hlt. unfold Observer.getAnalysis, Observer.ANALYSIS_INTERVAL.
  apply Z.ltb_lt in Hlt. now rewrite Hlt.
Qed.

Lemma getAnalysis_proceeds JSON_parse format currentTime gameState c o :
  (10000 <= currentTime - Observer.lastAnalysisTime o)%Z ->
  let o' :=
    snd (Observer.getAnalysis JSON_parse format currentTime gameState c o) in
  Observer.lastAnalysisTime o' = currentTime
  /\ Observer.messageHistory o'
     = AgentLog.request
         (format gameState
            (Observer.recordSnapshot currentTime gameState
               (Observer.gameHistory o)))
         (Observer.messageHistory o)
       ++ match c with
          | Agent.Reply (Some (String ch text)) =>
              [AgentLog.mkMessage AgentLog.assistant (String ch text)]
          | _ => []
          end.
Proof.
  intros Hge. unfold Observer.getAnalysis, Observer.ANALYSIS_INTERVAL.
  apply Z.ltb_ge in Hge. rewrite Hge.
  destruct c as [|[[|ch text]|]]; simpl; rewrite ?app_nil_r; auto.
Qed.

(** X20.  A call of [getAnalysis] less than 10 s after the last one that
    went through returns the default analysis and leaves the message
    history and the time of the last analysis alone; a call that goes
    through records its own time; so of two calls less than 10 s apart, the
    first having gone through, the second returns the default analysis and
    sends nothing. *)
Theorem analysis_throttle (JSON_parse : string -> option Agent.JSON)
  (format : GameState -> list Observer.GameHistory -> string)
  (t t' : Z) (g g' : GameState) (c c' : Agent.Completion)
  (o : Observer.ObserverState) :
  let first := Observer.getAnalysis JSON_parse format t g c o in
  let second := Observer.getAnalysis JSON_parse format t' g' c' (snd first) in
  ((t - Observer.lastAnalysisTime o < 10000)%Z ->
   fst first = Observer.getDefaultAnalysis
   /\ Observer.messageHistory (snd first) = Observer.messageHistory o
   /\ Observer.lastAnalysisTime (snd first) = Observer.lastAnalysisTime o)
  /\ ((10000 <= t - Observer.lastAnalysisTime o)%Z ->
      Observer.lastAnalysisTime (snd first) = t
      /\ ((t' - t < 10000)%Z ->
          fst second = Observer.getDefaultAnalysis
          /\ Observer.messageHistory (snd second)
             = Observer.messageHistory (snd first))).
Proof.
  intros first second. split.
  - intros Hlt. unfold first.
    rewrite (getAnalysis_throttled _ _ _ _ _ _ Hlt). simpl. auto.
  - intros Hge.
    destruct (getAnalysis_proceeds JSON_parse format t g c o Hge) as [Ht _].
    fold first in Ht. split; [exact Ht|].
    intros Hlt. unfold second.
    rewrite getAnalysis_throttled by (rewrite Ht; exact Hlt). simpl. auto.
Qed.

Lemma analysis_throttle_witness :
  fst (Observer.getAnalysis (fun _ => None) (fun _ _ => "state") 1705000
         (makeGameState initialState) Agent.ApiError
         (snd (Observer.getAnalysis (fun _ => None) (fun _ _ => "state")
                 1700000 (makeGameState initialState) Agent.ApiError
                 (newObserver "instructions"))))
  = Observer.getDefaultAnalysis.
Proof.
  apply (proj2 (analysis_throttle (fun _ => None) (fun _ _ => "state")
                  1700000 1705000 (makeGameState initialState)
                  (makeGameState initialState) Agent.ApiError Agent.ApiError
                  (newObserver "instructions"))).
  - simpl. lia.
  - lia.
Defined.

Lemma getAnalysis_halves JSON_parse format currentTime gameState c o :
  snd (Observer.getAnalysis JSON_parse format currentTime gameState c o)
  = match Observer.ask format currentTime gameState o with
    | (o', true) => Observer.answer c o'
    | (o', false) => o'
    end.
Proof.
  unfold Observer.getAnalysis, Observer.ask, Observer.answer.
  destruct (_ <? _)%Z; [reflexivity|].
  destruct c as [|[[|ch text]|]]; reflexivity.
Qed.

Lemma ask_keeps_invariant format first currentTime gameState o :
  head (Observer.messageHistory o) = Some first ->
  let o' := fst (Observer.ask format currentTime gameState o) in
  head (Observer.messageHistory o') = Some first
  /\ if snd (Observer.ask format currentTime gameState o)
     then (length (Observer.messageHistory o') <= 100)%nat
     else Observer.messageHistory o' = Observer.messageHistory o.
Proof.
  intros Hh. unfold Observer.ask.
  destruct (_ <? _)%Z; simpl; [now split|].
  split; [now apply request_head | apply request_head_length].
Qed.

Lemma observer_run_keeps_invariant format n first steps :
  forall o k o' k',
    head (Observer.messageHistory o) = Some first ->
    (length (Observer.messageHistory o) + k <= 100 + n)%nat ->
    Observer.run format n steps o k = Some (o', k') ->
    head (Observer.messageHistory o') = Some first
    /\ (length (Observer.messageHistory o') + k' <= 100 + n)%nat.
Proof.
  induction steps as [|[currentTime gameState|c] steps IH];
    intros o k o' k' Hh Hl; simpl.
  - intros [= <- <-]. now split.
  - pose proof (ask_keeps_invariant format first currentTime gameState o Hh)
      as [Hh' Hl'].
    destruct (Observer.ask format currentTime gameState o) as [o1 [|]];
      simpl in Hh', Hl'.
    + destruct (k <? n)%nat eqn:E; [|discriminate]. apply Nat.ltb_lt in E.
      apply IH; [exact Hh' | lia].
    + apply IH; [exact Hh' | now rewrite Hl'].
  - destruct k as [|k]; [discriminate|].
    apply IH; simpl; [now apply response_head|].
    pose proof (response_length c (Observer.messageHistory o)). lia.
Qed.

(** X21.  In whatever order analyses are asked for and their completions
    come back, at whatever times and whatever comes back, the observer's
    message history starts with its instruction turn; and as long as no
    more than [n] calls wait for their completion at any time, it holds at
    most 100 + [n] messages, less one for every call still waiting.  A
    throttled call waits for nothing. *)
Theorem observer_history_bounded (SYSTEM_PROMPT : string)
  (format : GameState -> list Observer.GameHistory -> string)
  (n : nat) (steps : list Observer.Step) (o : Observer.ObserverState)
  (k : nat) :
  Observer.run format n steps (newObserver SYSTEM_PROMPT) 0 = Some (o, k) ->
  head (Observer.messageHistory o)
  = Some (AgentLog.mkMessage AgentLog.system SYSTEM_PROMPT)
  /\ (length (Observer.messageHistory o) + k <= 100 + n)%nat.
Proof.
  apply observer_run_keeps_invariant; [reflexivity | simpl; lia].
Qed.

Lemma observer_history_bounded_witness :
  (length [AgentLog.mkMessage AgentLog.system "instructions";
           AgentLog.mkMessage AgentLog.user "state";
           AgentLog.mkMessage AgentLog.assistant "reply"] + 0
   <= 100 + 1)%nat.
Proof.
  apply (proj2 (observer_history_bounded "instructions" (fun _ _ => "state") 1
                  [Observer.Ask 1700000 (makeGameState initialState);
                   Observer.Ask 1705000 (makeGameState initialState);
                   Observer.Answer (Agent.Reply (Some "reply"))]
                  (Observer.mkObserverState
                     [AgentLog.mkMessage AgentLog.system "instructions";
                      AgentLog.mkMessage AgentLog.user "state";
                      AgentLog.mkMessage AgentLog.assistant "reply"]
                     (Observer.recordSnapshot 1705000
                        (makeGameState initialState)
                        (Observer.recordSnapshot 1700000
                           (makeGameState initialState) []))
                     1700000)
                  0 eq_refl)).
Defined.

Lemma getArrow_cases current previous :
  (Qabs (current - previous) < 0.1 /\ Observer.getArrow current previous = "→")
  \/ (0.1 <= current - previous /\ Observer.getArrow current previous = "↑")
  \/ (current - previous <= -0.1
      /\ Observer.getArrow current previous = "↓").
Proof.
  unfold Observer.getArrow.
  destruct (Qltb (Qabs (current - previous)) 0.1) eqn:Ea.
  - left. apply Qltb_lt in Ea. auto.
  - right. apply Qltb_ge in Ea.
    destruct (Qltb 0 (current - previous)) eqn:Ed.
    + left. apply Qltb_lt in Ed. split; [|reflexivity].
      rewrite Qabs_pos in Ea; lra.
    + right. apply Qltb_ge in Ed. split; [|reflexivity].
      rewrite Qabs_neg in Ea; lra.
Qed.

(** X22.  The trend arrows turn with the comparison: an up arrow from one
    value to another is a down arrow the other way round, a flat arrow is
    flat both ways round, and a value compared with itself is flat.  With
    fewer than two snapshots in the window there are no arrows at all, and
    with two or more every arrow compares the newest snapshot with the
    oldest one of the window, not with the one before it. *)
Theorem trend_arrows (current previous : Q) :
  (Observer.getArrow current previous = "↑"
   <-> Observer.getArrow previous current = "↓")
  /\ (Observer.getArrow current previous = "→"
      <-> Observer.getArrow previous current = "→")
  /\ Observer.getArrow current current = "→"
  /\ (forall history,
        (length history < 2)%nat ->
        Observer.calculateTrends history
        = Observer.mkTrends "" "" "" "" "")
  /\ (forall oldest between newest,
        let arrow (field : Observer.GameHistory -> Q) :=
          Observer.getArrow (field newest) (field oldest) in
        let of_resource (key : Resource -> Q) (h : Observer.GameHistory) :=
          key (Observer.h_resources h) in
        Observer.calculateTrends (oldest :: between ++ [newest])
        = Observer.mkTrends (arrow (of_resource oxygen))
            (arrow (of_resource water)) (arrow (of_resource temperature))
            (arrow (of_resource energy))
            (arrow (fun h => inject_Z (Observer.h_credits h)))).
Proof.
  assert (Hpos : forall x, Qabs x < 0.1 -> x < 0.1 /\ -0.1 < x)
    by (intros x H; apply Qabs_Qlt_condition in H; lra).
  split; [|split; [|split; [|split]]].
  - destruct (getArrow_cases current previous)
      as [[H ->]|[[H ->]|[H ->]]];
      destruct (getArrow_cases previous current)
        as [[H' ->]|[[H' ->]|[H' ->]]]; split; intros Hx;
      try discriminate; try reflexivity;
      try (apply Hpos in H); try (apply Hpos in H'); lra.
  - destruct (getArrow_cases current previous)
      as [[H ->]|[[H ->]|[H ->]]];
      destruct (getArrow_cases previous current)
        as [[H' ->]|[[H' ->]|[H' ->]]]; split; intros Hx;
      try discriminate; try reflexivity;
      try (apply Hpos in H); try (apply Hpos in H'); lra.
  - destruct (getArrow_cases current current)
      as [[H ->]|[[H ->]|[H ->]]]; [reflexivity | lra | lra].
  - intros history Hlen. unfold Observer.calculateTrends.
    destruct history as [|h [|h' rest]]; try reflexivity.
    simpl in Hlen. lia.
  - intros oldest between newest arrow of_resource.
    destruct between as [|h rest]; [reflexivity|].
    assert (Hlast : last (oldest :: (h :: rest) ++ [newest]) = Some newest)
      by (rewrite app_comm_cons; apply last_snoc).
    unfold Observer.calculateTrends. cbn [app] in *. now rewrite Hlast.
Qed.

Lemma trend_arrows_witness :
  Observer.calculateTrends [] = Observer.mkTrends "" "" "" "" "".
Proof.
  apply (proj1 (proj2 (proj2 (proj2 (trend_arrows 0 0)))) []). simpl. lia.
Defined.

(** ** The event interval *)

Lemma eventEffect_origin prevRender render interval r (known : list State) :
  (forall r', interval = Some r' ->
              In r' known /\ eventRollActive r' = true) ->
  eventEffect prevRender render interval = Some r ->
  In r (render :: known) /\ eventRollActive r = true.
Proof.
  intros Hold. unfold eventEffect. case_bool_decide as Hd.
  - intros E. destruct (Hold r E) as [Hin Hon]. split; [now right|exact Hon].
  - destruct (eventRollActive render) eqn:Hon; [|discriminate].
    intros [= <-]. split; [now left|exact Hon].
Qed.

Lemma reachable_interval a :
  reachable a ->
  forall r, eventInterval a = Some r ->
            In r (renders a) /\ eventRollActive r = true.
Proof.
  induction 1 as [|a render cb _ IH _]; [discriminate|].
  intros r Hr. unfold deliver in Hr. simpl in Hr.
  apply (eventEffect_origin _ _ _ r
           (fire render cb (current a) :: renders a)) in Hr; [exact Hr|].
  intros r' Hr'.
  now apply (eventEffect_origin _ _ _ r' (renders a)) in Hr'.
Qed.

(** X23.  In every reachable session the event interval exists exactly
    when the session is started, neither won nor lost, and events are
    enabled; and the render whose values its callback reads is a render of
    this session in which that was already so. *)
Theorem event_interval_alive (a : Session) :
  reachable a ->
  (is_Some (eventInterval a) <-> eventRollActive (current a) = true)
  /\ (forall r, eventInterval a = Some r ->
                In r (renders a) /\ eventRollActive r = true).
Proof.
  intros Hreach. split.
  - now destruct (reachable_inv a Hreach) as (_ & _ & H).
  - now apply reachable_interval.
Qed.

Lemma event_interval_alive_witness :
  is_Some (eventInterval playing).
Proof.
  apply (proj1 (event_interval_alive playing playing_reachable)).
  reflexivity.
Defined.

(** ** Handlers of an older render *)

Lemma clicks_reachable type n a :
  reachable a -> reachable (Nat.iter n (click (OnGenerate type)) a).
Proof.
  intros Hreach. induction n as [|n IH]; [exact Hreach|].
  rewrite Nat.iter_succ. apply reach_step; [exact IH|]. simpl. now left.
Qed.

Lemma spentDown_reachable : reachable spentDown.
Proof. apply clicks_reachable, reach_init. Qed.

Lemma saved_reachable : reachable saved.
Proof. apply clicks_reachable, earning_reachable. Qed.

Lemma previous_render render cb a :
  In (current a) (renders (deliver render cb a)).
Proof. unfold renders, deliver. cbn [current past]. right. right. now left. Qed.

Lemma current_render a : In (current a) (renders a).
Proof. now left. Qed.

Ltac evaluate :=
  repeat match goal with |- _ /\ _ => split end; vm_compute; reflexivity.

(** C4.  A generation of oxygen that goes through with the energy below 10.
    The handler comes from the render in which the energy was 10, a drain
    tick has since taken it to 9.4, and the session is neither won nor
    lost: the call raises the oxygen, takes the energy to 0 and awards 2
    credits, where the handler of the current render changes nothing. *)
Theorem stale_generate_passes_energy_guard :
  let shown := current spentDown in
  let s := current drained in
  let s' := handleAction shown Oxygen s in
  reachable drained /\ canRun drained shown (OnGenerate Oxygen)
  /\ gameWon s = false /\ gameLost s = false
  /\ energy (resources shown) == 10
  /\ energy (resources s) == 9.4
  /\ oxygen (resources s) < oxygen (resources s')
  /\ energy (resources s') == 0
  /\ credits s' = (credits s + 2)%Z
  /\ handleAction s Oxygen s = s.
Proof.
  intros shown s s'. split; [|split; [|evaluate]].
  - apply reach_step; [apply spentDown_reachable|].
    split; [reflexivity | vm_compute; reflexivity].
  - apply previous_render.
Qed.

(** C5.  A generation of energy that misses a purchased upgrade.  The
    handler comes from the render before the click that bought [energy1],
    so its multiplier is 1 where the multiplier of energy is 1.3: from 70
    the energy goes to 78, where [8 * multiplier(energy)] gives 80.4, as
    the handler of the current render does. *)
Theorem stale_generate_energy_misses_upgrade :
  let shown := current saved in
  let s := current upgraded in
  let s' := handleAction shown Energy s in
  reachable upgraded /\ canRun upgraded shown (OnGenerate Energy)
  /\ gameWon s = false /\ gameLost s = false
  /\ energy (resources s) == 70
  /\ getMultiplier (upgrades s) Energy == 1.3
  /\ energy (resources s') == 78
  /\ Qmin 100 (energy (resources s) + 8 * getMultiplier (upgrades s) Energy)
     == 80.4
  /\ energy (resources (handleAction s Energy s)) == 80.4.
Proof.
  intros shown s s'. split; [|split; [|evaluate]].
  - apply reach_step; [apply saved_reachable|].
    split; [apply current_render | vm_compute; tauto].
  - apply previous_render.
Qed.

(** C7.  A purchase that is accepted twice.  The handler and the upgrade
    object come from the render before the click that bought [oxygen1]:
    their credits are 80 and their [purchased] flag is off, so the cost is
    taken again, from 0 to -80, for an upgrade the state already holds as
    purchased; the handler of the current render changes nothing. *)
Theorem stale_purchase_charges_twice :
  let shown := current (earning 25) in
  let s := current clicked in
  let s' := purchaseUpgrade shown oxygen1 s in
  reachable clicked /\ canRun clicked shown (OnPurchase oxygen1)
  /\ (gameWon s = false /\ gameLost s = false
      /\ credits shown = 80%Z /\ credits s = 0%Z
      /\ credits s' = (-80)%Z /\ upgrades s' = upgrades s)
  /\ (forall u, In u (upgrades s) -> id u = id oxygen1 ->
                purchased u = true /\ purchaseUpgrade s u s = s).
Proof.
  intros shown s s'.
  assert (Hin : In oxygen1 (upgrades shown)) by (vm_compute; tauto).
  split; [|split; [|split; [evaluate|]]].
  - apply reach_step; [apply earning_reachable|].
    split; [apply current_render | exact Hin].
  - split; [apply previous_render | exact Hin].
  - intros u Hu Hid.
    assert (Hp : purchased u = true).
    { vm_compute in Hu.
      repeat (destruct Hu as [<-|Hu]; [try reflexivity; discriminate|]).
      destruct Hu. }
    split; [exact Hp|]. rewrite purchaseUpgrade_rejected by tauto.
    vm_compute. reflexivity.
Qed.

(** ** The countdown on the clock *)

Lemma drainActive_deps s s' :
  drainEffectDeps s = drainEffectDeps s' -> drainActive s = drainActive s'.
Proof. unfold drainEffectDeps, drainActive. now intros [= -> -> ->]. Qed.

Lemma countdownActive_deps s s' :
  criticalEffectDeps s = criticalEffectDeps s' -> resources s = resources s' ->
  countdownActive s = countdownActive s'.
Proof.
  unfold criticalEffectDeps, countdownActive. now intros [= -> -> _ ->] ->.
Qed.

Lemma writesResources_false render cb st :
  writesResources render cb = false ->
  resources (fire render cb st) = resources st.
Proof.
  destruct cb as [type|upgrade| | | |currentTime r1 r2|]; simpl;
    try reflexivity; try discriminate.
  - unfold handleAction.
    destruct (negb (gameStarted render)),
      (gameWon render || gameLost render); simpl; try reflexivity;
      destruct type; try discriminate;
      destruct (Qltb (energy (resources render)) 10); simpl;
      try discriminate; reflexivity.
  - intros _. apply purchaseUpgrade_resources.
  - intros _. now destruct (countdownTick_fields st) as (_ & -> & _).
  - unfold eventTick.
    now destruct (selectEvent (eventCooldowns render) currentTime r1 r2).
Qed.

Lemma drainEffect_guard prevRender render t interval :
  (is_Some interval -> drainActive prevRender = true) ->
  is_Some (drainEffect prevRender render t interval) ->
  drainActive render = true.
Proof.
  intros Hold. unfold drainEffect. case_bool_decide as Hd.
  - intros H. rewrite <- (drainActive_deps _ _ Hd). auto.
  - destruct (drainActive render); [reflexivity|]. now intros [x [=]].
Qed.

Lemma countdownEffect_guard newResources prevRender render t interval :
  (newResources = false -> resources prevRender = resources render) ->
  (is_Some interval -> countdownActive prevRender = true) ->
  is_Some (countdownEffect newResources prevRender render t interval) ->
  countdownActive render = true.
Proof.
  intros Hres Hold. unfold countdownEffect.
  destruct newResources; simpl; [|case_bool_decide as Hd].
  - destruct (countdownActive render); [reflexivity|]. now intros [x [=]].
  - intros H. rewrite <- (countdownActive_deps _ _ Hd (Hres eq_refl)). auto.
  - destruct (countdownActive render); [reflexivity|]. now intros [x [=]].
Qed.

Lemma runAt_inv t render cb c :
  clockInv c -> canRun (session c) render cb ->
  clockInv (runAt t render cb c).
Proof.
  intros (Hreach & Hdrain & Hcount) Hrun. unfold clockInv, runAt.
  cbn [session drainInterval countdownInterval].
  split; [now apply reach_step|].
  change (current (deliver render cb (session c)))
    with (commit (fire render cb (current (session c)))).
  split.
  - apply drainEffect_guard. apply drainEffect_guard.
    destruct cb; try exact Hdrain. intros _. apply Hrun.
  - apply countdownEffect_guard; [intros _; symmetry; apply commit_resources|].
    apply countdownEffect_guard.
    + intros Hw. symmetry. now apply writesResources_false.
    + destruct cb; try exact Hcount. intros _. apply Hrun.
Qed.

Lemma nextTimer_canRun c t cb :
  clockInv c -> nextTimer c = Some (t, cb) ->
  canRun (session c) (current (session c)) cb.
Proof.
  intros (_ & Hdrain & Hcount). unfold nextTimer.
  destruct (drainInterval c) as [d|], (countdownInterval c) as [k|];
    try destruct (d <=? k)%Z; intros [= <- <-]; simpl;
    (split; [reflexivity|]); eauto.
Qed.

Lemma runUntil_inv fuel limit c : clockInv c -> clockInv (runUntil fuel limit c).
Proof.
  revert c. induction fuel as [|fuel IH]; intros c Hinv; [exact Hinv|].
  simpl. destruct (nextTimer c) as [[t cb]|] eqn:En; [|exact Hinv].
  destruct (t <=? limit)%Z; [|exact Hinv].
  apply IH, runAt_inv; [exact Hinv|]. now apply (nextTimer_canRun c t).
Qed.

Lemma leftAlone_inv : clockInv leftAlone.
Proof.
  apply runAt_inv.
  - split; [apply reach_init|]. split; intros [x [=]].
  - simpl. now left.
Qed.

Lemma clicking_inv period n c : clockInv c -> clockInv (clicking period n c).
Proof.
  revert c. induction n as [|n IH]; intros c Hinv; [exact Hinv|].
  cbn [clicking]. apply IH, runAt_inv; [now apply runUntil_inv|].
  exact (current_render _).
Qed.

(** C2.  The countdown does not run once a second.  Any callback that
    writes the resources, whatever it writes, leaves the countdown interval
    a full second from its next tick, so a tick is lost with every drain.
    A fresh game started by one click at time 0 and left alone is critical
    from that click on (oxygen and water are 0); its countdown is due at 1 s
    and 2 s, at 3 s the drain tick comes first and the countdown is due
    again at 4 s; after 30 s the countdown reads 10, at 43.999 s it reads 1,
    and the game is lost at 44 s.  With a generation of energy every 800 ms
    instead, the countdown still reads 30 after 48 s. *)
Theorem drain_restarts_countdown_second :
  let at3 := runUntil 100 3000 leftAlone in
  let at30 := runUntil 100 30000 leftAlone in
  let at43 := runUntil 100 43999 leftAlone in
  let at44 := runUntil 100 44000 leftAlone in
  let busy := clicking 800 60 leftAlone in
  (forall t render cb c,
     writesResources render cb = true ->
     let c' := runAt t render cb c in
     countdownInterval c'
     = if countdownActive (current (session c')) then Some (t + 1000)%Z
       else None)
  /\ reachable (session at44)
  /\ (phase (current (session leftAlone)) = Critical 30
      /\ nextTimer leftAlone = Some (1000%Z, OnCountdown))
  /\ (elapsed at3 = 3000%Z
      /\ phase (current (session at3)) = Critical 28
      /\ nextTimer at3 = Some (4000%Z, OnCountdown))
  /\ (elapsed at30 = 30000%Z
      /\ phase (current (session at30)) = Critical 10
      /\ nextTimer at30 = Some (31000%Z, OnCountdown))
  /\ (phase (current (session at43)) = Critical 1
      /\ nextTimer at43 = Some (44000%Z, OnCountdown))
  /\ (elapsed at44 = 44000%Z
      /\ phase (current (session at44)) = Lost
      /\ nextTimer at44 = None)
  /\ reachable (session busy)
  /\ (elapsed busy = 48000%Z
      /\ monitoredLow (resources (current (session busy)))
      /\ phase (current (session busy)) = Critical 30).
Proof.
  intros at3 at30 at43 at44 busy.
  split; [|split; [apply runUntil_inv, leftAlone_inv|]].
  2: { do 5 (split; [evaluate|]).
       split; [apply clicking_inv, leftAlone_inv|].
       split; [vm_compute; reflexivity|].
       split; [left; vm_compute; discriminate | vm_compute; reflexivity]. }
  intros t render cb c Hw c'. unfold c', runAt.
  cbn [session countdownInterval]. rewrite Hw.
  change (current (deliver render cb (session c)))
    with (commit (fire render cb (current (session c)))).
  set (s1 := fire render cb (current (session c))).
  unfold countdownEffect at 2. cbn [negb andb].
  unfold countdownEffect. cbn [negb andb]. case_bool_decide as Hd.
  - now rewrite (countdownActive_deps _ _ Hd (eq_sym (commit_resources s1))).
  - reflexivity.
Qed.
